(** * w3up-client: settings import/export and the Client class

    A shallow embedding of the JavaScript sources

    - the settings module ([toPrincipal], [importSettings],
      [exportSettings]),
    - [src/client.js], in its two revisions ([ClientA], the earlier one, and
      [ClientB], the later one, with its static [create]), without the
      constructor,

    over a small model of JavaScript values.  The repository is glue code:
    every interesting computation happens in libraries it imports
    ([@ucanto/principal], [@ucanto/core], [@web3-storage/access],
    [@web3-storage/upload-client]).  Those libraries are interfaces here
    (type classes); the theorems hold for every implementation of them, and
    small reference implementations show that the assumptions made about
    them can be met. *)

From Stdlib Require Import ZArith Ascii String.
From stdpp Require Import base option list strings pretty gmap.

Open Scope string_scope.
Set Warnings "-register-all".
Set Warnings "-clear-no-such-hyp".

(** ** Exceptions and results *)

(** What a [throw] carries.  The code never inspects a caught value, so the
    payload is only a label. *)
Inductive exn : Type :=
| TypeError (msg : string)
| SyntaxError (msg : string)
| LibraryError (msg : string).

(** The result of running code that may throw (for an [async] function:
    a promise that resolves or rejects). *)
Inductive outcome (A : Type) : Type :=
| Ok (a : A)
| Throw (e : exn).
Arguments Ok {A} a.
Arguments Throw {A} e.

Definition obind {A B} (c : outcome A) (k : A → outcome B) : outcome B :=
  match c with
  | Ok a => k a
  | Throw e => Throw e
  end.

(** [try { c } catch (error) { h }] *)
Definition try_catch {A} (c : outcome A) (h : exn → outcome A) : outcome A :=
  match c with
  | Ok a => Ok a
  | Throw e => h e
  end.

Definition returns {A} (c : outcome A) : bool :=
  match c with Ok _ => true | Throw _ => false end.

#[global] Instance outcome_ret : MRet outcome := fun A a => Ok a.
#[global] Instance outcome_bind : MBind outcome := fun A B k c => obind c k.
#[global] Instance outcome_fmap : FMap outcome :=
  fun A B f c => obind c (fun a => Ok (f a)).

(** Sequential [for ... of] loop threading an accumulator; a throw in the
    body leaves the loop. *)
Fixpoint foldM {A B} (f : A → B → outcome A) (acc : A) (l : list B) : outcome A :=
  match l with
  | [] => Ok acc
  | x :: r => acc' ← f acc x; foldM f acc' r
  end.

(** ** Insertion-ordered string-keyed stores

    Both a JavaScript [Map<string, _>] and the own properties of a plain
    object keep their keys in insertion order, and writing to a key that is
    present replaces the value where it stands. *)
Module Assoc.
Section Defs.
Context {V : Type}.

Fixpoint get (k : string) (m : list (string * V)) : option V :=
  match m with
  | [] => None
  | (k', v) :: r => if String.eqb k' k then Some v else get k r
  end.

Definition has (k : string) (m : list (string * V)) : bool :=
  match get k m with Some _ => true | None => false end.

Fixpoint set (k : string) (v : V) (m : list (string * V)) : list (string * V) :=
  match m with
  | [] => [(k, v)]
  | (k', v') :: r =>
      if String.eqb k' k then (k, v) :: r else (k', v') :: set k v r
  end.

Definition keys (m : list (string * V)) : list string := map fst m.
End Defs.
End Assoc.

(** ** JavaScript values

    [host] is the type of the objects that live in the imported libraries
    (principals, buffers, UCAN views, blocks, library delegations, CIDs,
    connections).  [VSpace] and [VDelegation] are instances of the
    repository's own classes [Space] and [Delegation]: [new Space(did, meta)]
    and [new Delegation(root, blocks, meta)].  The class bodies ([space.js],
    [delegation.js]) are not at hand, so an instance is taken to be
    determined by the arguments of its constructor, and to enumerate no
    properties of its own.

    [VObj] is a plain object: its own properties, with [Object.prototype]
    behind them.  [VObjProto proto props] is such an object after its
    prototype was replaced by [proto] (an object or [null]), which is what
    an assignment to its [__proto__] does. *)
Inductive value (host : Type) : Type :=
| VUndefined
| VNull
| VBool (b : bool)
| VNum (n : Z)
| VStr (s : string)
| VArr (items : list (value host))
| VObj (props : list (string * value host))
| VObjProto (proto : value host) (props : list (string * value host))
| VHost (h : host)
| VSpace (did meta : value host)
| VDelegation (root blocks meta : value host).
Arguments VUndefined {host}.
Arguments VNull {host}.
Arguments VBool {host} b.
Arguments VNum {host} n.
Arguments VStr {host} s.
Arguments VArr {host} items.
Arguments VObj {host} props.
Arguments VObjProto {host} proto props.
Arguments VHost {host} h.
Arguments VSpace {host} did meta.
Arguments VDelegation {host} root blocks meta.

Abbreviation obj host := (list (string * value host)).

(** [ToBoolean]: what [if (x)] and [x ? a : b] test.  Numbers only enter
    through this test (JSON never yields NaN). *)
Definition truthy {host} (v : value host) : bool :=
  match v with
  | VUndefined | VNull => false
  | VBool b => b
  | VNum n => negb (Z.eqb n 0)
  | VStr s => negb (String.eqb s "")
  | _ => true
  end.

(** [x == null], the test behind [?.] and [??]. *)
Definition nullish {host} (v : value host) : bool :=
  match v with
  | VUndefined | VNull => true
  | _ => false
  end.

(** [a ?? b] *)
Definition coalesce {host} (a b : value host) : value host :=
  if nullish a then b else a.

(** Reading properties of library objects is the library's business. *)
Class HostObjects (host : Type) := {
  (** [h[k]] *)
  host_get : host → string → value host;
  (** [Object.keys(h)] *)
  host_keys : host → list string
}.

Section Properties.
Context {host : Type} `{HostObjects host}.

Definition index_props (l : list (value host)) : obj host :=
  imap (fun i x => (pretty i, x)) l.

Definition chars (s : string) : list (value host) :=
  map (fun c => VStr (String c EmptyString)) (String.list_ascii_of_string s).

(** Own enumerable properties, in enumeration order. *)
Definition own_props (v : value host) : obj host :=
  match v with
  | VObj o => o
  | VObjProto _ o => o
  | VArr l => index_props l
  | VStr s => index_props (chars s)
  | VHost h => map (fun k => (k, host_get h k)) (host_keys h)
  | _ => []
  end.

(** [v[k]] for a [v] that is neither [null] nor [undefined]; a property
    that is absent reads as [undefined].  What [Object.prototype] and the
    other built-in prototypes provide (methods, [length]) is never read by
    the code and is left out; a prototype that was put in place of
    [Object.prototype] is read when the object has no such property of its
    own. *)
Fixpoint get_prop (v : value host) (k : string) : value host :=
  match v with
  | VHost h => host_get h k
  | VObjProto proto o =>
      match Assoc.get k o with
      | Some x => x
      | None => get_prop proto k
      end
  | _ => default VUndefined (Assoc.get k (own_props v))
  end.

(** Whether [v] is an object or [null]: what the setter of [__proto__]
    takes for a prototype. *)
Definition is_object_or_null (v : value host) : bool :=
  match v with
  | VUndefined | VBool _ | VNum _ | VStr _ => false
  | _ => true
  end.

(** Whether an assignment to [__proto__] that reaches [v] on the prototype
    chain finds the accessor of [Object.prototype]: the chain must end in
    [Object.prototype], with no data property of that name on the way. *)
Fixpoint reaches_proto_accessor (v : value host) : bool :=
  match v with
  | VUndefined | VNull => false
  | VObj o => negb (Assoc.has "__proto__" o)
  | VObjProto proto o =>
      negb (Assoc.has "__proto__" o) && reaches_proto_accessor proto
  | _ => true
  end.

(** [o[k] = v] for an object [o] made by an object literal (extensible,
    its properties writable): a property [o] has is replaced where it
    stands, a new one is added last.  The key [__proto__] is the exception:
    unless [o] has a property of that name, the assignment runs the setter
    that [Object.prototype] provides, which replaces the prototype of [o]
    when [v] is an object or [null], does nothing otherwise, and in neither
    case adds a property. *)
Definition set_prop (o : value host) (k : string) (v : value host) : value host :=
  let runs_setter := String.eqb k "__proto__" && reaches_proto_accessor o in
  match o with
  | VObj props =>
      if runs_setter then
        if is_object_or_null v then VObjProto v props else o
      else VObj (Assoc.set k v props)
  | VObjProto proto props =>
      if runs_setter then
        if is_object_or_null v then VObjProto v props else o
      else VObjProto proto (Assoc.set k v props)
  | _ => o
  end.

(** The prototype that was put in place of [Object.prototype], if any. *)
Definition replaced_prototype (o : value host) : option (value host) :=
  match o with
  | VObjProto proto _ => Some proto
  | _ => None
  end.

(** An object as [{}] and assignments of objects leave it: one on which an
    assignment to [__proto__] runs the setter. *)
Definition literal_like (o : value host) : bool :=
  match o with
  | VObj _ | VObjProto _ _ => reaches_proto_accessor o
  | _ => false
  end.

(** The keys under which an assignment adds a property. *)
Definition adds_property (k : string) : bool := negb (String.eqb k "__proto__").

(** [v.k]: a [TypeError] on [null] and [undefined]. *)
Definition member (v : value host) (k : string) : outcome (value host) :=
  if nullish v then Throw (TypeError "Cannot read properties of null or undefined")
  else Ok (get_prop v k).

(** [v?.k] *)
Definition opt_member (v : value host) (k : string) : value host :=
  if nullish v then VUndefined else get_prop v k.

(** [Object.entries(v)] *)
Definition Object_entries (v : value host) : outcome (obj host) :=
  if nullish v then Throw (TypeError "Cannot convert undefined or null to object")
  else Ok (own_props v).

(** [Object.keys(v)] *)
Definition Object_keys (v : value host) : outcome (list string) :=
  if nullish v then Throw (TypeError "Cannot convert undefined or null to object")
  else Ok (Assoc.keys (own_props v)).
End Properties.

(** ** The libraries the settings module calls

    Arguments are untyped, as in the source (the settings hold [any]); a
    call either returns an object of the library or throws. *)
Class Ucanto (host : Type) := {
  (** [JSON.parse(text)] *)
  JSON_parse : string → outcome (value host);
  (** [Buffer.from(data, 'base64')] *)
  Buffer_from_base64 : value host → outcome host;
  (** [SigningPrincipal.decode(bytes)] *)
  SigningPrincipal_decode : value host → outcome host;
  (** [SigningPrincipal.parse(text)] *)
  SigningPrincipal_parse : value host → outcome host;
  (** [SigningPrincipal.format(principal)] *)
  SigningPrincipal_format : value host → outcome string;
  (** [UCAN.parse(jwt)] *)
  UCAN_parse : value host → outcome host;
  (** [await UCAN.write(ucan)] *)
  UCAN_write : value host → outcome host;
  (** [UCAN.format(ucan)] *)
  UCAN_format : value host → outcome string;
  (** [Delegation.create({ root })] *)
  Delegation_create : value host → outcome host;
  (** [Delegation.import([root])] *)
  Delegation_import : value host → outcome host
}.

(** ** The settings module *)
Section Settings.
Context {host : Type} `{HostObjects host} `{Ucanto host}.

(** Convert some stored secret into a principal. *)
Definition toPrincipal (secret : value host) : outcome (value host) :=
  try_catch (VHost <$> SigningPrincipal_decode secret) (fun _ =>
    try_catch (VHost <$> SigningPrincipal_parse secret) (fun _ =>
      try_catch
        (buff ← Buffer_from_base64 secret;
         VHost <$> SigningPrincipal_decode (VHost buff))
        (fun _ => Ok VNull))).

(** The third attempt of [toPrincipal] on its own: base64-decode, then
    decode. *)
Definition third_attempt (secret : value host) : outcome host :=
  buff ← Buffer_from_base64 secret; SigningPrincipal_decode (VHost buff).

(** Whether [toPrincipal] finds a principal in a stored secret: what the
    test [if (parsed)] of [importSettings] sees. *)
Definition converts (secret : value host) : bool :=
  match toPrincipal secret with
  | Ok parsed => truthy parsed
  | Throw _ => false
  end.

Definition is_secret_key (key : string) : bool :=
  String.eqb key "secret" || String.eqb key "agent_secret"
  || String.eqb key "account_secret".

(** Body of the loop over [Object.entries(imported.delegations)];
    [delegations] is the object under construction. *)
Definition import_delegation (delegations : value host) (entry : string * value host)
  : outcome (value host) :=
  let '(did, del) := entry in
  ucan ← UCAN_parse (opt_member del "ucan");
  root ← UCAN_write (VHost ucan);
  created ← Delegation_create (VObj [("root", VHost root)]);
  alias ← member del "alias";
  Ok (set_prop delegations did (VObj [("ucan", VHost created); ("alias", alias)])).

Definition import_delegations (v : value host) : outcome (value host) :=
  entries ← Object_entries v;
  foldM import_delegation (VObj []) entries.

(** Body of the loop over [Object.keys(imported)]. *)
Definition import_key (imported : value host) (settings : obj host) (key : string)
  : outcome (obj host) :=
  if is_secret_key key then
    imported_key ← member imported key;
    parsed ← toPrincipal imported_key;
    if truthy parsed then
      formatted ← SigningPrincipal_format parsed;
      Ok (Assoc.set key (VStr formatted) settings)
    else Ok settings
  else if String.eqb key "delegations" then
    imported_delegations ← member imported "delegations";
    delegations ← import_delegations imported_delegations;
    Ok (Assoc.set "delegations" delegations settings)
  else
    imported_key ← member imported key;
    Ok (Assoc.set key imported_key settings).

(** Takes a JSON string and builds a settings map from it.  The final
    "fail state" test of the source has an empty body. *)
Definition importSettings (settingsString : string) : outcome (obj host) :=
  imported ← JSON_parse settingsString;
  if truthy imported then
    keys ← Object_keys imported;
    foldM (import_key imported) [] keys
  else Ok [].

(** Body of the loop over [Object.entries(settings.get('delegations'))];
    [delegations] is the object held by [output.delegations]. *)
Definition export_delegation (delegations : value host) (entry : string * value host)
  : outcome (value host) :=
  let '(did, del) := entry in
  imported ← Delegation_import (VArr [opt_member (opt_member del "ucan") "root"]);
  ucan ← UCAN_format (VHost imported);
  alias ← member del "alias";
  Ok (set_prop delegations did (VObj [("ucan", VStr ucan); ("alias", alias)])).

(** [settings.get(key)] *)
Definition Map_get (settings : obj host) (key : string) : value host :=
  default VUndefined (Assoc.get key settings).

(** Takes a settings map and builds a plain object out of it. *)
Definition exportSettings (settings : obj host) : outcome (value host) :=
  let output := [] in
  output ←
    (if Assoc.has "secret" settings then
       formatted ← SigningPrincipal_format (Map_get settings "secret");
       Ok (Assoc.set "secret" (VStr formatted) output)
     else Ok output);
  output ←
    (if Assoc.has "agent_secret" settings then
       parsed ← SigningPrincipal_parse (Map_get settings "agent_secret");
       formatted ← SigningPrincipal_format (VHost parsed);
       Ok (Assoc.set "agent_secret" (VStr formatted) output)
     else Ok output);
  output ←
    (if Assoc.has "account_secret" settings then
       parsed ← SigningPrincipal_parse (Map_get settings "account_secret");
       formatted ← SigningPrincipal_format (VHost parsed);
       Ok (Assoc.set "account_secret" (VStr formatted) output)
     else Ok output);
  output ←
    (if Assoc.has "delegations" settings then
       entries ← Object_entries (Map_get settings "delegations");
       delegations ← foldM export_delegation (VObj []) entries;
       Ok (Assoc.set "delegations" delegations output)
     else Ok output);
  Ok (VObj output).
End Settings.

(** ** The world the Client acts on

    The client's [_agent] (an [Agent] of [@web3-storage/access]) and the
    services behind it are a state of some type [X] that only the libraries
    read and change.  Option objects that callers hand to the client live in
    a heap, so that a write through one reference is seen through every
    other.  Each call that leaves the repository is recorded. *)
Abbreviation loc := nat.

(** An object in the heap: its own properties (data properties, which is
    what option objects are made of), whether properties can be added to it,
    and which of its properties are read-only.  [Object.preventExtensions]
    and [Object.seal] make an object non-extensible; [Object.freeze] does so
    too and makes every property read-only. *)
Record heap_object (host : Type) : Type := HeapObject {
  fields : obj host;
  extensible : bool;
  readonly : list string
}.
Arguments HeapObject {host} fields extensible readonly.
Arguments fields {host} _.
Arguments extensible {host} _.
Arguments readonly {host} _.

(** [{ ... }]: what an object literal makes. *)
Definition plain {host} (fields : obj host) : heap_object host :=
  HeapObject fields true [].

(** [Object.freeze({ ... })] *)
Definition frozen {host} (fields : obj host) : heap_object host :=
  HeapObject fields false (Assoc.keys fields).

(** Whether [o.k = v] is accepted: a property that is there must not be
    read-only, and one that is not there can only be added to an
    extensible object. *)
Definition accepts {host} (o : heap_object host) (k : string) : bool :=
  if Assoc.has k (fields o) then negb (bool_decide (k ∈ readonly o))
  else extensible o.

(** The object after [o.k = v] was accepted. *)
Definition store {host} (k : string) (v : value host) (o : heap_object host)
  : heap_object host :=
  HeapObject (Assoc.set k v (fields o)) (extensible o) (readonly o).

(** The heap after [l.k = v], when the object at [l] accepts the write.
    (A reference always designates an object: the case of none at [l] is
    there for totality.) *)
Definition write {host} (h : gmap loc (heap_object host)) (l : loc) (k : string)
    (v : value host) : option (gmap loc (heap_object host)) :=
  match h !! l with
  | Some o => if accepts o k then Some (<[l := store k v o]> h) else None
  | None => None
  end.

(** What strict code throws when an assignment is not accepted (the file
    is a module, hence strict). *)
Definition not_writable : exn :=
  TypeError "Cannot assign to read only property or add property, object is not extensible".

Inductive event (host : Type) : Type :=
| EvInvocationConfig (caps : list string)
| EvUploadFile (conf file : value host) (options : loc) (heap : gmap loc (heap_object host))
| EvUploadDirectory (conf files : value host) (options : loc) (heap : gmap loc (heap_object host))
| EvAgent (method : string) (args : list (value host)).
Arguments EvInvocationConfig {host} caps.
Arguments EvUploadFile {host} conf file options heap.
Arguments EvUploadDirectory {host} conf files options heap.
Arguments EvAgent {host} method args.

Record world (host X : Type) : Type := World {
  ext : X;
  heap : gmap loc (heap_object host);
  trace : list (event host)
}.
Arguments World {host X} ext heap trace.
Arguments ext {host X} w.
Arguments heap {host X} w.
Arguments trace {host X} w.

(** An [async] method: runs on a world, resolves or rejects, leaves a world. *)
Definition M (host X A : Type) : Type := world host X → outcome A * world host X.

#[global] Instance M_ret {host X} : MRet (M host X) := fun A a w => (Ok a, w).
#[global] Instance M_bind {host X} : MBind (M host X) :=
  fun A B k c w =>
    match c w with
    | (Ok a, w') => k a w'
    | (Throw e, w') => (Throw e, w')
    end.

(** A step that cannot touch the world (property reads, [new]). *)
Definition pure {host X A} (c : outcome A) : M host X A := fun w => (c, w).

(** [ServiceConf] of [./types]: the connections of the two services. *)
Record ServiceConf (host : Type) : Type := {
  access : value host;
  upload : value host
}.
Arguments access {host} s.
Arguments upload {host} s.

(** The fields [Base] gives a client, apart from [_agent]. *)
Record Base (host : Type) : Type := {
  _serviceConf : ServiceConf host
}.
Arguments _serviceConf {host} b.

(** Modelled from the spec: the ability names [StoreCapabilities.add.can]
    and [UploadCapabilities.add.can] of [@web3-storage/capabilities], which
    the source only refers to. *)
Definition StoreCapabilities_add_can : string := "store/add".
Definition UploadCapabilities_add_can : string := "upload/add".

(** The type [DID] of the declarations ([did:${string}]): a string with the
    scheme [did:] in front. *)
Definition is_did (s : string) : bool := String.prefix "did:" s.

(** The abilities both upload methods ask an invocation configuration for. *)
Definition upload_caps : list string :=
  [StoreCapabilities_add_can; UploadCapabilities_add_can].

(** What the client calls: the agent, [Base._invocationConfig] (declared in
    [./base.js]) and the upload client. *)
Class Services (host X : Type) := {
  (** [this._agent.issuer] *)
  agent_issuer : X → value host;
  (** the entries of the map [this._agent.spaces], in iteration order *)
  agent_spaces : X → obj host;
  (** [this._agent.currentSpace()], a DID or [undefined] *)
  agent_currentSpace : X → option string;
  agent_setCurrentSpace : value host → X → outcome (value host) * X;
  agent_createSpace : value host → X → outcome (value host) * X;
  agent_registerSpace : value host → value host → X → outcome (value host) * X;
  agent_importSpaceFromDelegation : value host → X → outcome (value host) * X;
  agent_proofs : value host → X → outcome (value host) * X;
  agent_addProof : value host → X → outcome (value host) * X;
  (** everything the async iterator yields, or its failure *)
  agent_delegationsWithMeta : value host → X → outcome (list (value host)) * X;
  agent_delegate : value host → X → outcome (value host) * X;
  Base_invocationConfig : list string → X → outcome (value host) * X;
  upload_client_uploadFile :
    value host → value host → loc → gmap loc (heap_object host) → X →
    outcome (value host) * (gmap loc (heap_object host) * X);
  upload_client_uploadDirectory :
    value host → value host → loc → gmap loc (heap_object host) → X →
    outcome (value host) * (gmap loc (heap_object host) * X)
}.

Section Calls.
Context {host X : Type} `{HostObjects host} `{Services host X}.

(** A call into the agent: the library runs on its state. *)
Definition call {A} (ev : event host) (f : X → outcome A * X) : M host X A :=
  fun w =>
    let '(r, x) := f (ext w) in
    (r, World x (heap w) (trace w ++ [ev])).

(** A call into the upload client, which is handed a reference. *)
Definition call_upload {A} (ev : gmap loc (heap_object host) → event host)
    (f : gmap loc (heap_object host) → X → outcome A * (gmap loc (heap_object host) * X))
  : M host X A :=
  fun w =>
    let '(r, (h, x)) := f (heap w) (ext w) in
    (r, World x h (trace w ++ [ev (heap w)])).

(** The default [options = {}] of a parameter: a fresh empty object when
    the argument is [undefined]. *)
Definition default_options (options : option loc) : M host X loc :=
  fun w =>
    match options with
    | Some l => (Ok l, w)
    | None =>
        let l := fresh (dom (heap w)) in
        (Ok l, World (ext w) (<[l := plain []]> (heap w)) (trace w))
    end.

(** [options.k = v], for a key that [Object.prototype] does not define: a
    [TypeError] when the object does not accept the write, and then nothing
    is written. *)
Definition assign (options : loc) (k : string) (v : value host) : M host X unit :=
  fun w =>
    match write (heap w) options k v with
    | Some h => (Ok (), World (ext w) h (trace w))
    | None => (Throw not_writable, w)
    end.

(** [this._agent.spaces.get(did)] *)
Definition spaces_get (x : X) (did : string) : value host :=
  default VUndefined (Assoc.get did (agent_spaces x)).

(** [new Delegation(delegation.root, delegation.blocks, meta)] for one
    [{ delegation, meta }] yielded by the agent. *)
Definition wrap_delegation (item : value host) : outcome (value host) :=
  delegation ← member item "delegation";
  meta ← member item "meta";
  root ← member delegation "root";
  blocks ← member delegation "blocks";
  Ok (VDelegation root blocks meta).

(** The argument [{ ...options, abilities, audience, audienceMeta }]. *)
Definition delegate_options (options abilities audience audienceMeta : value host)
  : value host :=
  VObj (Assoc.set "audienceMeta" audienceMeta
         (Assoc.set "audience" audience
           (Assoc.set "abilities" abilities (own_props options)))).

(** The reference a method works with once the default of its [options]
    parameter has been applied, and the heap that reference points into. *)
Definition options_of (w : world host X) (options : option loc)
  : loc * gmap loc (heap_object host) :=
  match options with
  | Some l => (l, heap w)
  | None => (fresh (dom (heap w)), <[fresh (dom (heap w)) := plain []]> (heap w))
  end.

(** The default [options = {}] of a parameter passed by value. *)
Definition default_object (options : value host) : value host :=
  match options with
  | VUndefined => VObj []
  | _ => options
  end.
End Calls.

(** ** What [Client.create] calls

    The static [create] of the second revision runs before there is a
    client: it reaches a backing store ([./store.js], or the one the caller
    passes), the key generator ([./signer.js]) and [AgentData] of
    [@web3-storage/access].  Their state is of some type [S]; each call is
    recorded. *)
Inductive boot_event (host : Type) : Type :=
| EvStoreNew
| EvStoreLoad (store : value host)
| EvFromExport (raw options : value host)
| EvSignerGenerate
| EvAgentDataCreate (init options : value host).
Arguments EvStoreNew {host}.
Arguments EvStoreLoad {host} store.
Arguments EvFromExport {host} raw options.
Arguments EvSignerGenerate {host}.
Arguments EvAgentDataCreate {host} init options.

Class Bootstrap (host S : Type) := {
  (** [new Store()] *)
  Store_new : S → outcome (value host) * S;
  (** [await store.load()] *)
  Store_load : value host → S → outcome (value host) * S;
  (** [AgentData.fromExport(raw, { store })] *)
  AgentData_fromExport : value host → value host → S → outcome (value host) * S;
  (** [await Signer.generate()] *)
  Signer_generate : S → outcome (value host) * S;
  (** [await AgentData.create({ principal }, { store })] *)
  AgentData_create : value host → value host → S → outcome (value host) * S
}.

(** [new Client(agentData, options)]: an instance is determined by the
    arguments of its constructor. *)
Record client_instance (host : Type) : Type := NewClient {
  client_agentData : value host;
  client_options : value host
}.
Arguments NewClient {host} client_agentData client_options.
Arguments client_agentData {host} c.
Arguments client_options {host} c.

(** The state of the libraries and the calls made so far. *)
Definition Boot (host S A : Type) : Type :=
  S * list (boot_event host) → outcome A * (S * list (boot_event host)).

#[global] Instance Boot_ret {host S} : MRet (Boot host S) := fun A a st => (Ok a, st).
#[global] Instance Boot_bind {host S} : MBind (Boot host S) :=
  fun A B k c st =>
    match c st with
    | (Ok a, st') => k a st'
    | (Throw e, st') => (Throw e, st')
    end.

Definition boot_pure {host S A} (c : outcome A) : Boot host S A := fun st => (c, st).

Definition boot_call {host S A} (ev : boot_event host) (f : S → outcome A * S)
  : Boot host S A :=
  fun st =>
    let '(r, s) := f st.1 in
    (r, (s, app st.2 [ev])).

(** ** [Client], first revision of [src/client.js] *)
Module ClientA.
Section Methods.
Context {host X : Type} `{HostObjects host} `{Services host X}.
Variable this : Base host.

(** Uploads a file to the service and returns the root data CID for the
    generated DAG. *)
Definition uploadFile (file : value host) (options : option loc)
  : M host X (value host) :=
  options ← default_options options;
  conf ← call (EvInvocationConfig
                 [StoreCapabilities_add_can; UploadCapabilities_add_can])
              (Base_invocationConfig
                 [StoreCapabilities_add_can; UploadCapabilities_add_can]);
  _ ← assign options "connection" (upload (_serviceConf this));
  call_upload (EvUploadFile conf file options)
              (upload_client_uploadFile conf file options).

(** Uploads a directory of files to the service and returns the root
    data CID for the generated DAG. *)
Definition uploadDirectory (files : value host) (options : option loc)
  : M host X (value host) :=
  options ← default_options options;
  conf ← call (EvInvocationConfig
                 [StoreCapabilities_add_can; UploadCapabilities_add_can])
              (Base_invocationConfig
                 [StoreCapabilities_add_can; UploadCapabilities_add_can]);
  _ ← assign options "connection" (upload (_serviceConf this));
  call_upload (EvUploadDirectory conf files options)
              (upload_client_uploadDirectory conf files options).

(** The current user agent (this device). *)
Definition agent (w : world host X) : value host :=
  agent_issuer (ext w).

(** The current space. *)
Definition currentSpace (w : world host X) : value host :=
  let did := from_option VStr VUndefined (agent_currentSpace (ext w)) in
  if truthy did then
    match agent_currentSpace (ext w) with
    | Some d => VSpace did (spaces_get (ext w) d)
    | None => VUndefined
    end
  else VUndefined.

(** Use a specific space. *)
Definition setCurrentSpace (did : value host) : M host X (value host) :=
  _ ← call (EvAgent "setCurrentSpace" [did]) (agent_setCurrentSpace did);
  mret VUndefined.

(** Spaces available to this agent. *)
Definition spaces (w : world host X) : list (value host) :=
  map (fun '(did, meta) => VSpace (VStr did) meta) (agent_spaces (ext w)).

(** Create a new space with an optional name. *)
Definition createSpace (name : value host) : M host X (value host) :=
  did_meta ← call (EvAgent "createSpace" [name]) (agent_createSpace name);
  did ← pure (member did_meta "did");
  meta ← pure (member did_meta "meta");
  mret (VSpace did meta).

(** Register the _current_ space with the service. *)
Definition registerSpace (email options : value host) : M host X (value host) :=
  _ ← call (EvAgent "registerSpace" [email; options])
           (agent_registerSpace email options);
  mret VUndefined.

(** Add a space from a received proof. *)
Definition addSpace (proof : value host) : M host X (value host) :=
  call (EvAgent "importSpaceFromDelegation" [proof])
       (agent_importSpaceFromDelegation proof).

(** Get all the proofs matching the capabilities. *)
Definition proofs (caps : value host) : M host X (value host) :=
  call (EvAgent "proofs" [caps]) (agent_proofs caps).

(** Add a proof to the agent. *)
Definition addProof (proof : value host) : M host X (value host) :=
  call (EvAgent "addProof" [proof]) (agent_addProof proof).

(** Get delegations created by the agent for others. *)
Definition delegations (caps : value host) : M host X (value host) :=
  items ← call (EvAgent "delegationsWithMeta" [caps])
               (agent_delegationsWithMeta caps);
  delegations ← pure (foldM (fun acc item =>
                               d ← wrap_delegation item; Ok (app acc [d]))
                            [] items);
  mret (VArr delegations).

(** Create a delegation to the passed audience for the given abilities
    with the _current_ space as the resource. *)
Definition createDelegation (audience abilities options : value host)
  : M host X (value host) :=
  let options := default_object options in
  given ← pure (member options "audienceMeta");
  let audienceMeta :=
    coalesce given (VObj [("name", VStr "agent"); ("type", VStr "device")]) in
  let arg := delegate_options options abilities audience audienceMeta in
  root_blocks ← call (EvAgent "delegate" [arg]) (agent_delegate arg);
  root ← pure (member root_blocks "root");
  blocks ← pure (member root_blocks "blocks");
  mret (VDelegation root blocks (VObj [("audience", audienceMeta)])).
End Methods.
End ClientA.

(** ** [Client], second revision of [src/client.js] *)
Module ClientB.
Section Methods.
Context {host X : Type} `{HostObjects host} `{Services host X}.
Variable this : Base host.

(** Uploads a file to the service and returns the root data CID for the
    generated DAG. *)
Definition uploadFile (file : value host) (options : option loc)
  : M host X (value host) :=
  options ← default_options options;
  conf ← call (EvInvocationConfig
                 [StoreCapabilities_add_can; UploadCapabilities_add_can])
              (Base_invocationConfig
                 [StoreCapabilities_add_can; UploadCapabilities_add_can]);
  _ ← assign options "connection" (upload (_serviceConf this));
  call_upload (EvUploadFile conf file options)
              (upload_client_uploadFile conf file options).

(** Uploads a directory of files to the service and returns the root
    data CID for the generated DAG. *)
Definition uploadDirectory (files : value host) (options : option loc)
  : M host X (value host) :=
  options ← default_options options;
  conf ← call (EvInvocationConfig
                 [StoreCapabilities_add_can; UploadCapabilities_add_can])
              (Base_invocationConfig
                 [StoreCapabilities_add_can; UploadCapabilities_add_can]);
  _ ← assign options "connection" (upload (_serviceConf this));
  call_upload (EvUploadDirectory conf files options)
              (upload_client_uploadDirectory conf files options).

(** The current user agent (this device). *)
Definition agent (w : world host X) : value host :=
  agent_issuer (ext w).

(** The current space. *)
Definition currentSpace (w : world host X) : value host :=
  let did := from_option VStr VUndefined (agent_currentSpace (ext w)) in
  if truthy did then
    match agent_currentSpace (ext w) with
    | Some d => VSpace did (spaces_get (ext w) d)
    | None => VUndefined
    end
  else VUndefined.

(** Use a specific space. *)
Definition setCurrentSpace (did : value host) : M host X (value host) :=
  _ ← call (EvAgent "setCurrentSpace" [did]) (agent_setCurrentSpace did);
  mret VUndefined.

(** Spaces available to this agent. *)
Definition spaces (w : world host X) : list (value host) :=
  map (fun '(did, meta) => VSpace (VStr did) meta) (agent_spaces (ext w)).

(** Create a new space with an optional name. *)
Definition createSpace (name : value host) : M host X (value host) :=
  _ ← call (EvAgent "createSpace" [name]) (agent_createSpace name);
  mret VUndefined.

(** Register the _current_ space with the service. *)
Definition registerSpace (email options : value host) : M host X (value host) :=
  _ ← call (EvAgent "registerSpace" [email; options])
           (agent_registerSpace email options);
  mret VUndefined.

(** Add a space from a received proof. *)
Definition addSpace (proof : value host) : M host X (value host) :=
  call (EvAgent "importSpaceFromDelegation" [proof])
       (agent_importSpaceFromDelegation proof).

(** Get all the proofs matching the capabilities. *)
Definition proofs (caps : value host) : M host X (value host) :=
  call (EvAgent "proofs" [caps]) (agent_proofs caps).

(** Add a proof to the agent. *)
Definition addProof (proof : value host) : M host X (value host) :=
  call (EvAgent "addProof" [proof]) (agent_addProof proof).

(** Get delegations created by the agent for others. *)
Definition delegations (caps : value host) : M host X (value host) :=
  items ← call (EvAgent "delegationsWithMeta" [caps])
               (agent_delegationsWithMeta caps);
  delegations ← pure (foldM (fun acc item =>
                               d ← wrap_delegation item; Ok (app acc [d]))
                            [] items);
  mret (VArr delegations).

(** Create a delegation to the passed audience for the given abilities
    with the _current_ space as the resource. *)
Definition createDelegation (audience abilities options : value host)
  : M host X (value host) :=
  let options := default_object options in
  given ← pure (member options "audienceMeta");
  let audienceMeta :=
    coalesce given (VObj [("name", VStr ""); ("type", VStr "device")]) in
  let arg := delegate_options options abilities audience audienceMeta in
  d ← call (EvAgent "delegate" [arg]) (agent_delegate arg);
  root ← pure (member d "root");
  blocks ← pure (member d "blocks");
  mret (VDelegation root blocks (VObj [("audience", audienceMeta)])).
End Methods.

Section Static.
Context {host S : Type} `{HostObjects host} `{Bootstrap host S}.

(** Create a new upload client: from the data in the backing store when it
    has some, from a newly generated signing key otherwise. *)
Definition create (options : value host) : Boot host S (client_instance host) :=
  let options := default_object options in
  given ← boot_pure (member options "store");
  store ← (if nullish given then boot_call EvStoreNew Store_new else mret given);
  raw ← boot_call (EvStoreLoad store) (Store_load store);
  if truthy raw then
    data ← boot_call (EvFromExport raw (VObj [("store", store)]))
                     (AgentData_fromExport raw (VObj [("store", store)]));
    mret (NewClient data options)
  else
    principal ← boot_call EvSignerGenerate Signer_generate;
    data ← boot_call (EvAgentDataCreate (VObj [("principal", principal)])
                        (VObj [("store", store)]))
                     (AgentData_create (VObj [("principal", principal)])
                        (VObj [("store", store)]));
    mret (NewClient data options).
End Static.
End ClientB.

(** ** Reference implementations of the libraries

    Small executable stand-ins for the imported libraries: enough structure
    to run the code above on concrete inputs.  A signing key is a string
    that starts with [k]; its formatted form is the key behind the multibase
    prefix [M]; "base64" text decodes to itself.  A UCAN is identified with
    its token text. *)
Module Reference.
Inductive host : Type :=
| RKey (key : string)
| RBytes (data : string)
| RUcan (jwt : string)
| RBlock (jwt : string)
| RDelegation (jwt : string)
| RConnection (url : string).

#[export] Instance objects : HostObjects host := {|
  host_get h k :=
    match h with
    | RDelegation jwt => if String.eqb k "root" then VHost (RBlock jwt) else VUndefined
    | _ => VUndefined
    end;
  host_keys _ := []
|}.

Definition is_key (s : string) : bool := String.prefix "k" s.

Definition decode (v : value host) : outcome host :=
  match v with
  | VHost (RBytes s) =>
      if is_key s then Ok (RKey s) else Throw (LibraryError "not a signing key")
  | _ => Throw (TypeError "expected bytes")
  end.

Definition parse (v : value host) : outcome host :=
  match v with
  | VStr (String "M"%char s) => decode (VHost (RBytes s))
  | _ => Throw (LibraryError "not a multibase string")
  end.

Definition format (v : value host) : outcome string :=
  match v with
  | VHost (RKey s) => Ok (String "M"%char s)
  | _ => Throw (TypeError "Unknown type, must be binary type")
  end.

Definition quote : string := String (Ascii.ascii_of_nat 34) "".

(** [JSON.stringify] on the documents below. *)
Fixpoint stringify (v : value host) : string :=
  match v with
  | VBool true => "true"
  | VBool false => "false"
  | VStr s => quote ++ s ++ quote
  | VArr l => "[" ++ String.concat "," (map stringify l) ++ "]"
  | VObj o =>
      "{" ++ String.concat ","
               (map (fun '(k, x) => quote ++ k ++ quote ++ ":" ++ stringify x) o)
      ++ "}"
  | _ => "null"
  end.

Definition alice : value host :=
  VObj [("ucan", VStr "eyJ.alice"); ("alias", VStr "alice")].

(** Settings documents the reference parser knows. *)
Definition only_secret : value host := VObj [("secret", VStr "Mk1")].
Definition full : value host :=
  VObj [("agent_secret", VStr "k2"); ("account_secret", VStr "Mk3");
        ("email", VStr "a@b.c"); ("delegations", VObj [("did:key:zAlice", alice)])].
Definition bad_secret : value host :=
  VObj [("secret", VStr "oops"); ("email", VStr "a@b.c"); ("agent_secret", VStr "Mk2")].
Definition bad_secret_null_delegations : value host :=
  VObj [("secret", VStr "oops"); ("delegations", VNull)].

Definition only_agent_secret : value host := VObj [("agent_secret", VStr "k2")].

Definition documents : list (value host) :=
  [only_secret; only_agent_secret; full; bad_secret;
   bad_secret_null_delegations; VNull].

Definition parse_json (text : string) : outcome (value host) :=
  match find (fun d => String.eqb (stringify d) text) documents with
  | Some d => Ok d
  | None => Throw (SyntaxError "Unexpected token")
  end.

#[export] Instance ucanto : Ucanto host := {|
  JSON_parse := parse_json;
  Buffer_from_base64 v :=
    match v with
    | VStr s => Ok (RBytes s)
    | _ => Throw (TypeError "The first argument must be of type string")
    end;
  SigningPrincipal_decode := decode;
  SigningPrincipal_parse := parse;
  SigningPrincipal_format := format;
  UCAN_parse v :=
    match v with
    | VStr jwt => Ok (RUcan jwt)
    | _ => Throw (LibraryError "not a token")
    end;
  UCAN_write v :=
    match v with
    | VHost (RUcan jwt) => Ok (RBlock jwt)
    | _ => Throw (TypeError "not a UCAN")
    end;
  UCAN_format v :=
    match v with
    | VHost (RUcan jwt) | VHost (RDelegation jwt) => Ok jwt
    | _ => Throw (TypeError "not a UCAN")
    end;
  Delegation_create v :=
    match get_prop v "root" with
    | VHost (RBlock jwt) => Ok (RDelegation jwt)
    | _ => Throw (TypeError "no root block")
    end;
  Delegation_import v :=
    match v with
    | VArr [VHost (RBlock jwt)] => Ok (RDelegation jwt)
    | _ => Throw (LibraryError "no root block")
    end
|}.

(** The agent: its current space and its spaces. *)
Record agent_data : Type := {
  current : option string;
  known : obj host
}.

Definition new_space : value host :=
  VObj [("did", VStr "did:key:zNew"); ("meta", VObj [("isRegistered", VBool false)])].

Definition delegated : value host :=
  VObj [("root", VStr "bafyroot"); ("blocks", VArr [])].

Definition invocation_config (caps : list string) (x : agent_data)
  : outcome (value host) * agent_data :=
  match current x with
  | Some did => (Ok (VObj [("with", VStr did); ("can", VArr (map VStr caps))]), x)
  | None => (Throw (LibraryError "missing current space"), x)
  end.

#[export] Instance services : Services host agent_data := {|
  agent_issuer _ := VHost (RKey "k0");
  agent_spaces := known;
  agent_currentSpace := current;
  agent_setCurrentSpace did x :=
    match did with
    | VStr d => (Ok VUndefined, {| current := Some d; known := known x |})
    | _ => (Throw (TypeError "not a DID"), x)
    end;
  agent_createSpace name x :=
    (Ok new_space,
     {| current := current x;
        known := Assoc.set "did:key:zNew" (VObj [("name", name)]) (known x) |});
  agent_registerSpace _ _ x := (Ok VUndefined, x);
  agent_importSpaceFromDelegation _ x := (Ok VUndefined, x);
  agent_proofs _ x := (Ok (VArr []), x);
  agent_addProof _ x := (Ok VUndefined, x);
  agent_delegationsWithMeta _ x := (Ok [], x);
  agent_delegate _ x := (Ok delegated, x);
  Base_invocationConfig := invocation_config;
  upload_client_uploadFile _ _ _ h x := (Ok (VStr "bafyfile"), (h, x));
  upload_client_uploadDirectory _ _ _ h x := (Ok (VStr "bafydir"), (h, x))
|}.

(** The backing store is a slot that holds exported agent data or nothing;
    the state counts the keys generated so far. *)
Record store_state : Type := {
  slot : option (value host);
  generated : nat
}.

#[export] Instance bootstrap : Bootstrap host store_state := {|
  Store_new s := (Ok (VStr "store:default"), s);
  Store_load _ s := (Ok (default VUndefined (slot s)), s);
  AgentData_fromExport raw _ s := (Ok (VObj [("loaded", raw)]), s);
  Signer_generate s :=
    (Ok (VHost (RKey "k-new")), {| slot := slot s; generated := S (generated s) |});
  AgentData_create init _ s :=
    (Ok (VObj [("created", init)]),
     {| slot := Some (VObj [("created", init)]); generated := generated s |})
|}.

Definition used_store : store_state :=
  {| slot := Some (VObj [("principal", VStr "Mk1")]); generated := 0 |}.

Definition empty_store : store_state := {| slot := None; generated := 0 |}.

(** An agent that has delegated twice.  Asked for everything ([caps]
    undefined) it yields both delegations; asked with a filter it yields,
    after the first, an item that is [null]. *)
Definition to_alice : value host :=
  VObj [("delegation", VObj [("root", VStr "bafyalice"); ("blocks", VArr [])]);
        ("meta", VObj [("audience", VObj [("name", VStr "alice")])])].

Definition to_carol : value host :=
  VObj [("delegation", VObj [("root", VStr "bafycarol"); ("blocks", VArr [])]);
        ("meta", VObj [("audience", VObj [("name", VStr "carol")])])].

Definition delegating : Services host agent_data := {|
  agent_issuer := agent_issuer;
  agent_spaces := agent_spaces;
  agent_currentSpace := agent_currentSpace;
  agent_setCurrentSpace := agent_setCurrentSpace;
  agent_createSpace := agent_createSpace;
  agent_registerSpace := agent_registerSpace;
  agent_importSpaceFromDelegation := agent_importSpaceFromDelegation;
  agent_proofs := agent_proofs;
  agent_addProof := agent_addProof;
  agent_delegationsWithMeta caps x :=
    match caps with
    | VUndefined => (Ok [to_alice; to_carol], x)
    | _ => (Ok [to_alice; VNull], x)
    end;
  agent_delegate := agent_delegate;
  Base_invocationConfig := Base_invocationConfig;
  upload_client_uploadFile := upload_client_uploadFile;
  upload_client_uploadDirectory := upload_client_uploadDirectory
|}.

Definition me : Base host :=
  {| _serviceConf := {| access := VHost (RConnection "https://access");
                        upload := VHost (RConnection "https://upload") |} |}.

Definition home : agent_data :=
  {| current := Some "did:key:zHome";
     known := [("did:key:zHome", VObj [("name", VStr "home")]);
               ("did:key:zWork", VObj [("name", VStr "work")])] |}.

Definition nowhere : agent_data := {| current := None; known := [] |}.

(** A world whose agent is at home, holding one options object. *)
Definition at_home : world host agent_data :=
  World home {[ 0 := plain [("retries", VNum 3)] ]} [].

Definition lost : world host agent_data := World nowhere ∅ [].

(** No current space, and one options object. *)
Definition stranded : world host agent_data :=
  World nowhere {[ 0 := plain [("retries", VNum 3)] ]} [].

(** At home, with options that were frozen, and with options that were
    sealed after [connection] was set. *)
Definition icy : world host agent_data :=
  World home {[ 0 := frozen [("retries", VNum 3)] ]} [].

Definition sealed : world host agent_data :=
  World home
    {[ 0 := HeapObject [("connection", VNull); ("retries", VNum 3)] false [] ]} [].
End Reference.

(** * Properties *)

Ltac unfold_outcome :=
  unfold mbind, mret, fmap, outcome_bind, outcome_ret, outcome_fmap, obind,
    try_catch, returns in *.

Ltac run :=
  unfold mbind, M_bind, mret, M_ret, call, call_upload, assign,
    default_options, pure; simpl.

(** ** Stores *)
Module AssocFacts.
Section Facts.
Context {V : Type}.
Implicit Types (m : list (string * V)) (k : string) (v : V).

Lemma get_set_eq k v m : Assoc.get k (Assoc.set k v m) = Some v.
Proof.
  induction m as [|[k' v'] m IH]; simpl.
  - by rewrite String.eqb_refl.
  - destruct (String.eqb k' k) eqn:E; simpl.
    + by rewrite String.eqb_refl.
    + by rewrite E.
Qed.

Lemma get_set_ne k k' v m :
  k ≠ k' → Assoc.get k' (Assoc.set k v m) = Assoc.get k' m.
Proof.
  intros Hne. induction m as [|[k0 v0] m IH]; simpl.
  - by apply String.eqb_neq in Hne as ->.
  - destruct (String.eqb k0 k) eqn:E; simpl.
    + apply String.eqb_eq in E as ->.
      by apply String.eqb_neq in Hne as ->.
    + by rewrite IH.
Qed.

Lemma has_set k k' v m :
  Assoc.has k' (Assoc.set k v m) = String.eqb k k' || Assoc.has k' m.
Proof.
  unfold Assoc.has. destruct (String.eqb k k') eqn:E.
  - apply String.eqb_eq in E as ->. by rewrite get_set_eq.
  - apply String.eqb_neq in E. by rewrite get_set_ne.
Qed.

Lemma has_keys k m : Assoc.has k m = true ↔ k ∈ Assoc.keys m.
Proof.
  unfold Assoc.has, Assoc.keys.
  induction m as [|[k0 v0] m IH]; simpl.
  - split; [done | by intros ?%elem_of_nil].
  - destruct (String.eqb k0 k) eqn:E.
    + apply String.eqb_eq in E as ->. split; [left | done].
    + apply String.eqb_neq in E. rewrite IH. split.
      * by right.
      * by intros [?|?]%elem_of_cons.
Qed.

(** Writing to a store never reorders or drops its keys. *)
Lemma keys_set_present k v m :
  Assoc.has k m = true → Assoc.keys (Assoc.set k v m) = Assoc.keys m.
Proof.
  unfold Assoc.has, Assoc.keys.
  induction m as [|[k0 v0] m IH]; simpl; [done|].
  destruct (String.eqb k0 k) eqn:E; simpl.
  - by apply String.eqb_eq in E as ->.
  - intros Hk. by rewrite IH.
Qed.

Lemma keys_set_absent k v m :
  Assoc.has k m = false → Assoc.keys (Assoc.set k v m) = (Assoc.keys m ++ [k])%list.
Proof.
  unfold Assoc.has, Assoc.keys.
  induction m as [|[k0 v0] m IH]; simpl; [done|].
  destruct (String.eqb k0 k) eqn:E; simpl; [done|].
  intros Hk. by rewrite IH.
Qed.
End Facts.
End AssocFacts.

(** ** [toPrincipal] *)
Section ToPrincipal.
Context {host : Type} `{Ucanto host}.

Lemma toPrincipal_cases (secret : value host) :
  toPrincipal secret = Ok VNull ∨ ∃ p, toPrincipal secret = Ok (VHost p).
Proof.
  unfold toPrincipal. unfold_outcome.
  destruct (SigningPrincipal_decode secret); [eauto|].
  destruct (SigningPrincipal_parse secret); [eauto|].
  destruct (Buffer_from_base64 secret); [|eauto].
  destruct (SigningPrincipal_decode _); eauto.
Qed.

(** C9.  [toPrincipal] never throws.  It returns the result of
    [SigningPrincipal.decode] when that succeeds; otherwise that of
    [SigningPrincipal.parse] when that succeeds; otherwise that of
    base64-decoding followed by [SigningPrincipal.decode] when that
    succeeds; and it returns [null] exactly when all three attempts
    throw. *)
Theorem toPrincipal_total_first_success (secret : value host) :
  (∃ v, toPrincipal secret = Ok v)
  ∧ (∀ p, SigningPrincipal_decode secret = Ok p →
          toPrincipal secret = Ok (VHost p))
  ∧ (∀ p, returns (SigningPrincipal_decode secret) = false →
          SigningPrincipal_parse secret = Ok p →
          toPrincipal secret = Ok (VHost p))
  ∧ (∀ p, returns (SigningPrincipal_decode secret) = false →
          returns (SigningPrincipal_parse secret) = false →
          third_attempt secret = Ok p →
          toPrincipal secret = Ok (VHost p))
  ∧ (toPrincipal secret = Ok VNull ↔
       returns (SigningPrincipal_decode secret) = false
       ∧ returns (SigningPrincipal_parse secret) = false
       ∧ returns (third_attempt secret) = false).
Proof.
  split; [destruct (toPrincipal_cases secret) as [?|[p ?]]; eauto|].
  unfold toPrincipal, third_attempt. unfold_outcome.
  destruct (SigningPrincipal_decode secret) as [p1|e1];
    destruct (SigningPrincipal_parse secret) as [p2|e2];
    destruct (Buffer_from_base64 secret) as [b|e3];
    try destruct (SigningPrincipal_decode (VHost b)) as [p3|e4];
    repeat split; intros; try congruence; try tauto; auto.
  all: by destruct_and!.
Qed.
End ToPrincipal.

(** ** Loops *)
Section Loops.
Context {A B : Type} (f : A → B → outcome A).

Lemma foldM_cons_ok a x l a' :
  foldM f a (x :: l) = Ok a' ↔ ∃ a1, f a x = Ok a1 ∧ foldM f a1 l = Ok a'.
Proof.
  simpl. unfold_outcome. destruct (f a x) as [a1|e]; split.
  - eauto.
  - by intros (? & [= ->] & ?).
  - done.
  - by intros (? & ? & ?).
Qed.

(** A property every iteration preserves holds when the loop is left
    normally. *)
Lemma foldM_preserves (P : A → Prop) l :
  (∀ a x a', x ∈ l → P a → f a x = Ok a' → P a') →
  ∀ a a', P a → foldM f a l = Ok a' → P a'.
Proof.
  induction l as [|x l IH]; intros Hstep a a' Ha.
  - by intros [= <-].
  - intros (a1 & Hx & Hl)%foldM_cons_ok.
    apply (IH (fun a0 y a2 Hy => Hstep a0 y a2 (list_elem_of_further _ _ _ Hy)) a1);
      [|done].
    eapply Hstep; [left | done..].
Qed.

(** A property that the iteration for [x] establishes and every
    iteration preserves holds when the loop is left normally. *)
Lemma foldM_establishes (P : A → Prop) l x :
  x ∈ l →
  (∀ a a', f a x = Ok a' → P a') →
  (∀ a y a', P a → f a y = Ok a' → P a') →
  ∀ a a', foldM f a l = Ok a' → P a'.
Proof.
  intros Hin Hx Hkeep. induction l as [|y l IH]; [by apply elem_of_nil in Hin|].
  intros a a' (a1 & Hy & Hl)%foldM_cons_ok.
  apply elem_of_cons in Hin as [<-|Hin].
  - eapply (foldM_preserves P l); [|by eapply Hx|done]. eauto.
  - eauto.
Qed.

(** A loop that throws was left by one of its iterations. *)
Lemma foldM_throws l a e :
  foldM f a l = Throw e → ∃ a0 x, x ∈ l ∧ f a0 x = Throw e.
Proof.
  revert a. induction l as [|x l IH]; intros a; simpl; [done|].
  unfold_outcome. destruct (f a x) as [a1|e'] eqn:E.
  - intros (a0 & y & ? & ?)%IH. exists a0, y. split; [by right | done].
  - intros [= ->]. exists a, x. split; [left | done].
Qed.
End Loops.

(** ** [importSettings] *)
Section ImportSettings.
Context {host : Type} `{HostObjects host} `{Ucanto host}.
Implicit Types (imported v : value host) (settings : obj host) (key k : string).

Lemma truthy_not_nullish v : truthy v = true → nullish v = false.
Proof. by destruct v. Qed.

Lemma delegations_not_secret : is_secret_key "delegations" = false.
Proof. reflexivity. Qed.

(** One iteration that completes either leaves the map alone (a secret
    that does not convert) or writes the key. *)
Lemma import_key_ok imported settings key settings' :
  nullish imported = false →
  import_key imported settings key = Ok settings' →
  (settings' = settings ∧ is_secret_key key = true
     ∧ toPrincipal (get_prop imported key) = Ok VNull)
  ∨ (∃ v, settings' = Assoc.set key v settings
       ∧ (is_secret_key key = true →
            ∃ p formatted,
              toPrincipal (get_prop imported key) = Ok (VHost p)
              ∧ SigningPrincipal_format (VHost p) = Ok formatted
              ∧ v = VStr formatted)
       ∧ (key = "delegations" →
            ∃ ds, import_delegations (get_prop imported "delegations") = Ok ds
                  ∧ v = ds)
       ∧ (is_secret_key key = false → key ≠ "delegations" →
            v = get_prop imported key)).
Proof.
  intros Hnn. unfold import_key, member. rewrite Hnn.
  destruct (is_secret_key key) eqn:Hsecret.
  - unfold_outcome.
    destruct (toPrincipal_cases (get_prop imported key)) as [->|[p ->]]; simpl.
    + intros [= <-]. by left.
    + destruct (SigningPrincipal_format (VHost p)) as [formatted|] eqn:Hf; [|done].
      intros [= <-]. right. exists (VStr formatted). split; [done|].
      split; [by eauto|]. split; [|done].
      intros ->. by rewrite delegations_not_secret in Hsecret.
  - destruct (String.eqb key "delegations") eqn:Hd.
    + apply String.eqb_eq in Hd as ->. unfold_outcome.
      destruct (import_delegations _) as [ds|] eqn:Hds; [|done].
      intros [= <-]. right. exists ds. split; [done|].
      split; [done|]. split; [by eauto | done].
    + apply String.eqb_neq in Hd. unfold_outcome.
      intros [= <-]. right. exists (get_prop imported key).
      split; [done|]. split; [done|]. split; done.
Qed.

(** One iteration throws only on the delegations or when a converted
    principal cannot be formatted. *)
Lemma import_key_throws imported settings key e :
  nullish imported = false →
  import_key imported settings key = Throw e →
  (key = "delegations"
     ∧ import_delegations (get_prop imported "delegations") = Throw e)
  ∨ (is_secret_key key = true
     ∧ ∃ p, toPrincipal (get_prop imported key) = Ok (VHost p)
            ∧ SigningPrincipal_format (VHost p) = Throw e).
Proof.
  intros Hnn. unfold import_key, member. rewrite Hnn.
  destruct (is_secret_key key) eqn:Hsecret.
  - unfold_outcome.
    destruct (toPrincipal_cases (get_prop imported key)) as [->|[p Hp]]; simpl;
      [done|].
    rewrite Hp. simpl.
    destruct (SigningPrincipal_format (VHost p)) eqn:Hf; [done|].
    intros [= ->]. right. eauto.
  - destruct (String.eqb key "delegations") eqn:Hd.
    + apply String.eqb_eq in Hd as ->. unfold_outcome.
      destruct (import_delegations _) eqn:Hds; [done|].
      intros [= ->]. by left.
    + by unfold_outcome.
Qed.

(** What a completed loop over [keys] did to the map. *)
Lemma import_loop_omits imported keys k :
  nullish imported = false →
  is_secret_key k = true →
  toPrincipal (get_prop imported k) = Ok VNull →
  ∀ settings settings',
    Assoc.has k settings = false →
    foldM (import_key imported) settings keys = Ok settings' →
    Assoc.has k settings' = false.
Proof.
  intros Hnn Hk Hnull.
  apply (foldM_preserves _ (fun st => Assoc.has k st = false)).
  intros st key st' _ Hst Hstep.
  apply import_key_ok in Hstep as [(-> & _)|(v & -> & Hsec & _)]; [done| |done].
  rewrite AssocFacts.has_set, Hst, orb_false_r.
  apply String.eqb_neq. intros ->.
  destruct (Hsec Hk) as (p & ? & Hp & _). congruence.
Qed.

Lemma import_loop_writes imported keys key (P : value host → Prop) :
  nullish imported = false →
  key ∈ keys →
  (∀ settings settings',
      import_key imported settings key = Ok settings' →
      ∃ v, settings' = Assoc.set key v settings ∧ P v) →
  ∀ settings settings',
    foldM (import_key imported) settings keys = Ok settings' →
    ∃ v, Assoc.get key settings' = Some v ∧ P v.
Proof.
  intros Hnn Hin Hwrite.
  apply (foldM_establishes _
           (fun st => ∃ v, Assoc.get key st = Some v ∧ P v) keys key Hin).
  - intros st st' (v & -> & Hv)%Hwrite. exists v.
    by rewrite AssocFacts.get_set_eq.
  - intros st key' st' (v & Hget & Hv) Hstep.
    destruct (decide (key' = key)) as [->|Hne].
    + apply Hwrite in Hstep as (v' & -> & Hv'). exists v'.
      by rewrite AssocFacts.get_set_eq.
    + apply import_key_ok in Hstep as [(-> & _)|(v' & -> & _)]; [by eauto| |done].
      exists v. by rewrite AssocFacts.get_set_ne.
Qed.

Lemma falsy_no_props v : truthy v = false → own_props v = [].
Proof.
  destruct v; simpl; try done.
  intros Hs%negb_false_iff%String.eqb_eq. by subst.
Qed.

Lemma importSettings_loop settingsString imported :
  JSON_parse settingsString = Ok imported →
  truthy imported = true →
  importSettings settingsString
  = foldM (import_key imported) [] (Assoc.keys (own_props imported)).
Proof.
  intros Hparse Ht. unfold importSettings, Object_keys.
  rewrite Hparse. unfold_outcome.
  by rewrite Ht, (truthy_not_nullish _ Ht).
Qed.

Lemma importSettings_falsy settingsString imported :
  JSON_parse settingsString = Ok imported →
  truthy imported = false →
  importSettings settingsString = Ok [].
Proof.
  intros Hparse Ht. unfold importSettings. rewrite Hparse.
  unfold_outcome. by rewrite Ht.
Qed.

(** Whatever the secrets are, a [null] under [delegations] makes
    [importSettings] throw: [Object.entries(null)] is a [TypeError]. *)
Lemma importSettings_null_delegations settingsString secret :
  JSON_parse settingsString
  = Ok (VObj [("secret", secret); ("delegations", VNull)]) →
  ∃ e, importSettings settingsString = Throw e.
Proof.
  intros Hparse. rewrite (importSettings_loop _ _ Hparse); [|done].
  change (Assoc.keys (own_props (VObj _))) with ["secret"; "delegations"].
  destruct (foldM _ _ _) as [settings|e] eqn:Hloop; [|by eauto].
  apply foldM_cons_ok in Hloop as (st & _ & Hloop).
  by apply foldM_cons_ok in Hloop as (st' & Hstep & _).
Qed.

(** C5 (amended).  Let the value stored under [k], one of ['secret'],
    ['agent_secret'], ['account_secret'], be one that cannot be converted
    to a signing principal.  Then [importSettings] throws only when the
    processing of the ['delegations'] entry throws or when
    [SigningPrincipal.format] throws on a principal another key converted
    to; and when it returns, the map omits [k], while every other key of
    the input is imported: a secret that converts as its formatted
    principal, ['delegations'] as the imported delegations, any other key
    with the value it has in the input. *)
Theorem importSettings_omits_unconvertible_secret
    settingsString imported k :
  JSON_parse settingsString = Ok imported →
  is_secret_key k = true →
  toPrincipal (get_prop imported k) = Ok VNull →
  (∀ e, importSettings settingsString = Throw e →
      ("delegations" ∈ Assoc.keys (own_props imported)
       ∧ import_delegations (get_prop imported "delegations") = Throw e)
      ∨ (∃ k' p, k' ∈ Assoc.keys (own_props imported)
           ∧ k' ≠ k ∧ is_secret_key k' = true
           ∧ toPrincipal (get_prop imported k') = Ok (VHost p)
           ∧ SigningPrincipal_format (VHost p) = Throw e))
  ∧ (∀ settings, importSettings settingsString = Ok settings →
      Assoc.has k settings = false
      ∧ (∀ k' p, k' ∈ Assoc.keys (own_props imported) →
           is_secret_key k' = true →
           toPrincipal (get_prop imported k') = Ok (VHost p) →
           ∃ formatted,
             SigningPrincipal_format (VHost p) = Ok formatted
             ∧ Assoc.get k' settings = Some (VStr formatted))
      ∧ ("delegations" ∈ Assoc.keys (own_props imported) →
           ∃ ds, import_delegations (get_prop imported "delegations") = Ok ds
                 ∧ Assoc.get "delegations" settings = Some ds)
      ∧ (∀ k', k' ∈ Assoc.keys (own_props imported) →
           is_secret_key k' = false → k' ≠ "delegations" →
           Assoc.get k' settings = Some (get_prop imported k'))).
Proof.
  intros Hparse Hk Hnull.
  destruct (truthy imported) eqn:Ht; cycle 1.
  { rewrite (importSettings_falsy _ _ Hparse Ht), (falsy_no_props _ Ht).
    split; [done|]. intros ? [= <-]. split; [done|].
    split_and!; intros; repeat match goal with
                               | Hin : _ ∈ Assoc.keys [] |- _ =>
                                   by apply elem_of_nil in Hin
                               end. }
  rewrite (importSettings_loop _ _ Hparse Ht).
  pose proof (truthy_not_nullish _ Ht) as Hnn.
  split.
  { intros e (st & key & Hin & Hthrow)%foldM_throws.
    apply import_key_throws in Hthrow as [[-> ?]|(Hsec & p & Hp & Hf)];
      [left; by split| |exact Hnn].
    right. exists key, p. split_and!; try done. intros ->. congruence. }
  intros settings Hloop. split_and!.
  - exact (import_loop_omits imported _ k Hnn Hk Hnull [] settings eq_refl Hloop).
  - intros k' p Hin Hsec Hp.
    destruct (import_loop_writes imported _ k'
                (fun v => ∃ formatted,
                   SigningPrincipal_format (VHost p) = Ok formatted
                   ∧ v = VStr formatted) Hnn Hin) with (2 := Hloop)
      as (v & Hget & formatted & Hf & ->); [|by eauto].
    intros st st' Hstep.
    apply import_key_ok in Hstep as [(_ & _ & ?)|(v & -> & Hv & _)];
      [congruence| |done].
    destruct (Hv Hsec) as (p' & formatted & Hp' & Hf & ->).
    exists (VStr formatted). split; [done|]. exists formatted.
    split; [congruence | done].
  - intros Hin.
    destruct (import_loop_writes imported _ "delegations"
                (fun v => ∃ ds,
                   import_delegations (get_prop imported "delegations") = Ok ds
                   ∧ v = ds) Hnn Hin) with (2 := Hloop)
      as (v & Hget & ds & Hds & ->); [|by eauto].
    intros st st' Hstep.
    apply import_key_ok in Hstep as [(_ & ? & _)|(v & -> & _ & Hv & _)];
      [by rewrite delegations_not_secret in *| |done].
    destruct (Hv eq_refl) as (ds & Hds & ->). eauto.
  - intros k' Hin Hsec Hd.
    destruct (import_loop_writes imported _ k'
                (fun v => v = get_prop imported k') Hnn Hin) with (2 := Hloop)
      as (v & Hget & ->); [|done].
    intros st st' Hstep.
    apply import_key_ok in Hstep as [(_ & ? & _)|(v & -> & _ & _ & Hv)];
      [congruence| |done].
    eauto.
Qed.
End ImportSettings.

(** ** The Client: spaces *)
Section Spaces.
Context {host X : Type} `{HostObjects host} `{Services host X}.
Variable this : Base host.
Implicit Types (w : world host X).

Lemma did_truthy (did : string) :
  is_did did = true → truthy (VStr did : value host) = true.
Proof. by destruct did. Qed.

(** C7.  In either revision, [spaces()] returns one [Space] per entry of
    the agent's [spaces] map: as many as there are entries, the i-th built
    from the DID and the metadata of the i-th entry in iteration order. *)
Theorem spaces_one_per_entry w (spaces : world host X → list (value host)) :
  spaces = ClientA.spaces ∨ spaces = ClientB.spaces →
  length (spaces w) = length (agent_spaces (ext w))
  ∧ (∀ i did meta,
       agent_spaces (ext w) !! i = Some (did, meta) →
       spaces w !! i = Some (VSpace (VStr did) meta))
  ∧ (∀ i space,
       spaces w !! i = Some space →
       ∃ did meta, agent_spaces (ext w) !! i = Some (did, meta)
                   ∧ space = VSpace (VStr did) meta).
Proof.
  intros Hrev.
  assert (spaces w
          = (fun e : string * value host => VSpace (VStr e.1) e.2)
              <$> agent_spaces (ext w)) as ->.
  { destruct Hrev as [-> | ->]; unfold ClientA.spaces, ClientB.spaces;
      apply map_ext; by intros []. }
  split_and!.
  - by rewrite length_fmap.
  - intros i did meta Hi. by rewrite list_lookup_fmap, Hi.
  - intros i space. rewrite list_lookup_fmap.
    destruct (agent_spaces (ext w) !! i) as [[did meta]|]; [|done].
    intros [= <-]. eauto.
Qed.

(** C10.  In either revision, for an agent whose current space, when set,
    is a DID: [currentSpace()] returns [undefined] if and only if the agent
    has no current space set; otherwise it returns a [Space] built from
    that DID and from what the agent's [spaces] map holds for it. *)
Theorem currentSpace_undefined_iff_unset w
    (currentSpace : world host X → value host) :
  currentSpace = ClientA.currentSpace ∨ currentSpace = ClientB.currentSpace →
  (∀ did, agent_currentSpace (ext w) = Some did → is_did did = true) →
  (currentSpace w = VUndefined ↔ agent_currentSpace (ext w) = None)
  ∧ (∀ did, agent_currentSpace (ext w) = Some did →
       currentSpace w
       = VSpace (VStr did)
           (default VUndefined (Assoc.get did (agent_spaces (ext w))))).
Proof.
  intros Hrev Hdid.
  assert (currentSpace w = ClientA.currentSpace w) as ->
    by (by destruct Hrev as [-> | ->]).
  unfold ClientA.currentSpace, spaces_get.
  destruct (agent_currentSpace (ext w)) as [did|]; simpl.
  - change (negb (String.eqb did "")) with (truthy (VStr did : value host)).
    rewrite (did_truthy did (Hdid did eq_refl)).
    split; [done|]. by intros ? [= <-].
  - done.
Qed.
End Spaces.

(** ** The Client: uploads *)
Section Uploads.
Context {host X : Type} `{HostObjects host} `{Services host X}.
Variable this : Base host.
Implicit Types (w : world host X) (data conf : value host) (l : loc).

Lemma uploadFile_run w data options :
  ClientA.uploadFile this data options w
  = let '(l, h0) := options_of w options in
    match Base_invocationConfig upload_caps (ext w) with
    | (Ok conf, x) =>
        match write h0 l "connection" (upload (_serviceConf this)) with
        | Some h =>
            let '(r, (h', x')) := upload_client_uploadFile conf data l h x in
            (r, World x' h' (trace w ++ [EvInvocationConfig upload_caps;
                                         EvUploadFile conf data l h]))
        | None =>
            (Throw not_writable,
             World x h0 (trace w ++ [EvInvocationConfig upload_caps]))
        end
    | (Throw e, x) =>
        (Throw e, World x h0 (trace w ++ [EvInvocationConfig upload_caps]))
    end.
Proof.
  unfold ClientA.uploadFile, options_of. run.
  fold upload_caps.
  destruct options as [l|]; simpl;
    destruct (Base_invocationConfig upload_caps (ext w)) as [[conf|e] x]; simpl;
    try done;
    destruct (write _ _ _ _) as [h|]; simpl; try done;
    destruct (upload_client_uploadFile _ _ _ _ _) as [r [h' x']]; simpl;
    by rewrite <- app_assoc.
Qed.

Lemma uploadDirectory_run w data options :
  ClientA.uploadDirectory this data options w
  = let '(l, h0) := options_of w options in
    match Base_invocationConfig upload_caps (ext w) with
    | (Ok conf, x) =>
        match write h0 l "connection" (upload (_serviceConf this)) with
        | Some h =>
            let '(r, (h', x')) := upload_client_uploadDirectory conf data l h x in
            (r, World x' h' (trace w ++ [EvInvocationConfig upload_caps;
                                         EvUploadDirectory conf data l h]))
        | None =>
            (Throw not_writable,
             World x h0 (trace w ++ [EvInvocationConfig upload_caps]))
        end
    | (Throw e, x) =>
        (Throw e, World x h0 (trace w ++ [EvInvocationConfig upload_caps]))
    end.
Proof.
  unfold ClientA.uploadDirectory, options_of. run.
  fold upload_caps.
  destruct options as [l|]; simpl;
    destruct (Base_invocationConfig upload_caps (ext w)) as [[conf|e] x]; simpl;
    try done;
    destruct (write _ _ _ _) as [h|]; simpl; try done;
    destruct (upload_client_uploadDirectory _ _ _ _ _) as [r [h' x']]; simpl;
    by rewrite <- app_assoc.
Qed.

Lemma uploadFile_same : ClientB.uploadFile this = ClientA.uploadFile this.
Proof. reflexivity. Qed.

Lemma uploadDirectory_same :
  ClientB.uploadDirectory this = ClientA.uploadDirectory this.
Proof. reflexivity. Qed.

(** What an accepted write leaves at the place written to, and elsewhere. *)
Lemma write_accepted (h : gmap loc (heap_object host)) l o k (v : value host) :
  h !! l = Some o →
  accepts o k = true →
  ∃ h', write h l k v = Some h'
        ∧ h' !! l = Some (store k v o)
        ∧ ∀ l', l' ≠ l → h' !! l' = h !! l'.
Proof.
  intros Hl Hk. unfold write. rewrite Hl, Hk. eexists. split; [done|].
  split; [by rewrite lookup_insert_eq|].
  intros l' Hl'. by rewrite lookup_insert_ne.
Qed.

Lemma write_refused (h : gmap loc (heap_object host)) l o k (v : value host) :
  h !! l = Some o → accepts o k = false → write h l k v = None.
Proof. intros Hl Hk. unfold write. by rewrite Hl, Hk. Qed.

(** C6 (amended).  In either revision, [uploadFile] and [uploadDirectory]
    request the invocation configuration once, for exactly [store/add] and
    [upload/add].  When they receive it and [options.connection] can be
    written (the options are the caller's object, or a new empty object when
    the caller passes none), they call the upload client's [uploadFile]
    (resp. [uploadDirectory]) with that configuration, the data and the
    options, and what that call returns (and the state it leaves) is what
    they return.  When the configuration is refused they return the
    refusal, and when the options do not accept the write they throw a
    [TypeError]; either way the upload client is not called and no object
    has changed. *)
Theorem uploads_delegate_with_config w data options upload_file upload_directory :
  upload_file = ClientA.uploadFile this ∨ upload_file = ClientB.uploadFile this →
  upload_directory = ClientA.uploadDirectory this
  ∨ upload_directory = ClientB.uploadDirectory this →
  ∃ l h0,
    (∀ l0, options = Some l0 → l = l0 ∧ h0 = heap w)
    ∧ (options = None → heap w !! l = None ∧ h0 = <[l := plain []]> (heap w))
    ∧ match Base_invocationConfig ["store/add"; "upload/add"] (ext w) with
      | (Ok conf, x) =>
          match write h0 l "connection" (upload (_serviceConf this)) with
          | Some h =>
              (let '(r, (h', x')) := upload_client_uploadFile conf data l h x in
               upload_file data options w
               = (r, World x' h'
                       (trace w ++ [EvInvocationConfig ["store/add"; "upload/add"];
                                    EvUploadFile conf data l h])))
              ∧ (let '(r, (h', x')) :=
                   upload_client_uploadDirectory conf data l h x in
                 upload_directory data options w
                 = (r, World x' h'
                         (trace w ++ [EvInvocationConfig ["store/add"; "upload/add"];
                                      EvUploadDirectory conf data l h])))
          | None =>
              upload_file data options w
              = (Throw not_writable,
                 World x h0
                   (trace w ++ [EvInvocationConfig ["store/add"; "upload/add"]]))
              ∧ upload_directory data options w
                = (Throw not_writable,
                   World x h0
                     (trace w ++ [EvInvocationConfig ["store/add"; "upload/add"]]))
          end
      | (Throw e, x) =>
          upload_file data options w
          = (Throw e, World x h0
                        (trace w ++ [EvInvocationConfig ["store/add"; "upload/add"]]))
          ∧ upload_directory data options w
            = (Throw e, World x h0
                          (trace w ++ [EvInvocationConfig ["store/add"; "upload/add"]]))
      end.
Proof.
  intros Hfile Hdir.
  assert (upload_file = ClientA.uploadFile this) as ->
    by (by destruct Hfile as [-> | ->]).
  assert (upload_directory = ClientA.uploadDirectory this) as ->
    by (by destruct Hdir as [-> | ->]).
  rewrite uploadFile_run, uploadDirectory_run.
  change ["store/add"; "upload/add"] with upload_caps.
  destruct (options_of w options) as [l h0] eqn:Hopt.
  exists l, h0. split_and!.
  - intros l0 ->. by injection Hopt as <- <-.
  - intros ->. injection Hopt as <- <-.
    split; [apply not_elem_of_dom, is_fresh | done].
  - destruct (Base_invocationConfig upload_caps (ext w)) as [[conf|e] x]; [|done].
    destruct (write h0 l "connection" (upload (_serviceConf this))) as [h|];
      [|done].
    split; cbv zeta.
    + by destruct (upload_client_uploadFile _ _ _ _ _) as [r [h' x']].
    + by destruct (upload_client_uploadDirectory _ _ _ _ _) as [r [h' x']].
Qed.

(** C8 (amended).  In either revision, let [uploadFile] or
    [uploadDirectory] be given an options object.  When the configuration
    is obtained and the object accepts a write to [connection], the upload
    client is called with a reference to that same object, whose
    [connection] field then holds the client's upload service connection,
    whose other fields are as the caller left them, and no other object has
    changed.  When the object does not accept the write (a frozen object, a
    read-only [connection], a non-extensible object without [connection])
    the call throws a [TypeError], and when the configuration is refused it
    returns the refusal: in both cases every object is as it was and the
    upload client is not called. *)
Theorem uploads_overwrite_connection
    w data l o upload_file upload_directory :
  upload_file = ClientA.uploadFile this ∨ upload_file = ClientB.uploadFile this →
  upload_directory = ClientA.uploadDirectory this
  ∨ upload_directory = ClientB.uploadDirectory this →
  heap w !! l = Some o →
  match Base_invocationConfig ["store/add"; "upload/add"] (ext w) with
  | (Ok conf, x) =>
      if accepts o "connection" then
        ∃ h o',
          last (trace (upload_file data (Some l) w).2)
          = Some (EvUploadFile conf data l h)
          ∧ last (trace (upload_directory data (Some l) w).2)
            = Some (EvUploadDirectory conf data l h)
          ∧ h !! l = Some o'
          ∧ Assoc.get "connection" (fields o') = Some (upload (_serviceConf this))
          ∧ (∀ k, k ≠ "connection" →
               Assoc.get k (fields o') = Assoc.get k (fields o))
          ∧ extensible o' = extensible o
          ∧ readonly o' = readonly o
          ∧ (∀ l', l' ≠ l → h !! l' = heap w !! l')
      else
        upload_file data (Some l) w
        = (Throw not_writable,
           World x (heap w)
             (trace w ++ [EvInvocationConfig ["store/add"; "upload/add"]]))
        ∧ upload_directory data (Some l) w
          = (Throw not_writable,
             World x (heap w)
               (trace w ++ [EvInvocationConfig ["store/add"; "upload/add"]]))
  | (Throw e, x) =>
      upload_file data (Some l) w
      = (Throw e, World x (heap w)
                    (trace w ++ [EvInvocationConfig ["store/add"; "upload/add"]]))
      ∧ upload_directory data (Some l) w
        = (Throw e, World x (heap w)
                      (trace w ++ [EvInvocationConfig ["store/add"; "upload/add"]]))
  end.
Proof.
  intros Hfile Hdir Hl.
  assert (upload_file = ClientA.uploadFile this) as ->
    by (by destruct Hfile as [-> | ->]).
  assert (upload_directory = ClientA.uploadDirectory this) as ->
    by (by destruct Hdir as [-> | ->]).
  rewrite uploadFile_run, uploadDirectory_run.
  change ["store/add"; "upload/add"] with upload_caps.
  simpl.
  destruct (Base_invocationConfig upload_caps (ext w)) as [[conf|e] x]; [|done].
  destruct (accepts o "connection") eqn:Hk.
  - destruct (write_accepted (heap w) l o "connection"
                (upload (_serviceConf this)) Hl Hk) as (h & -> & Hh & Hrest).
    exists h, (store "connection" (upload (_serviceConf this)) o).
    destruct (upload_client_uploadFile conf data l h x) as [r1 [h1 x1]].
    destruct (upload_client_uploadDirectory conf data l h x) as [r2 [h2 x2]].
    simpl. split_and!; try done.
    + by rewrite (last_app_cons _ [_]).
    + by rewrite (last_app_cons _ [_]).
    + apply AssocFacts.get_set_eq.
    + intros k Hne. by apply AssocFacts.get_set_ne.
  - by rewrite (write_refused (heap w) l o "connection" _ Hl Hk).
Qed.
End Uploads.

(** ** The Client: delegations *)
Section Delegations.
Context {host X : Type} `{HostObjects host} `{Services host X}.
Implicit Types (w : world host X) (audience abilities options : value host).

Lemma default_object_not_nullish options :
  options ≠ VNull → nullish (default_object options) = false.
Proof. by destruct options. Qed.

(** What is passed to the agent carries the three fields the method sets
    and, for the rest, what the caller's options carry. *)
Lemma delegate_options_fields options abilities audience audienceMeta :
  ∃ props,
    delegate_options options abilities audience audienceMeta = VObj props
    ∧ Assoc.get "abilities" props = Some abilities
    ∧ Assoc.get "audience" props = Some audience
    ∧ Assoc.get "audienceMeta" props = Some audienceMeta
    ∧ (∀ k, k ≠ "abilities" → k ≠ "audience" → k ≠ "audienceMeta" →
         Assoc.get k props = Assoc.get k (own_props options)).
Proof.
  eexists. split; [reflexivity|]. split_and!.
  - rewrite !AssocFacts.get_set_ne by done. apply AssocFacts.get_set_eq.
  - rewrite AssocFacts.get_set_ne by done. apply AssocFacts.get_set_eq.
  - apply AssocFacts.get_set_eq.
  - intros k ? ? ?. by rewrite !AssocFacts.get_set_ne.
Qed.

Lemma member_default_object options k :
  options ≠ VNull →
  member (default_object options) k = Ok (get_prop (default_object options) k).
Proof.
  intros Hnn%default_object_not_nullish. unfold member. by rewrite Hnn.
Qed.

(** A run of [createDelegation] with audience metadata [audienceMeta]. *)
Local Abbreviation delegation_run w audience abilities options audienceMeta :=
  (let arg := delegate_options (default_object options) abilities audience
                audienceMeta in
   match agent_delegate arg (ext w) with
   | (Ok d, x) =>
       (root ← member d "root";
        blocks ← member d "blocks";
        Ok (VDelegation root blocks (VObj [("audience", audienceMeta)])),
        World x (heap w) (trace w ++ [EvAgent "delegate" [arg]]))
   | (Throw e, x) =>
       (Throw e, World x (heap w) (trace w ++ [EvAgent "delegate" [arg]]))
   end).

Lemma createDelegationA_run w audience abilities options :
  options ≠ VNull →
  ClientA.createDelegation audience abilities options w
  = delegation_run w audience abilities options
      (coalesce (get_prop (default_object options) "audienceMeta")
         (VObj [("name", VStr "agent"); ("type", VStr "device")])).
Proof.
  intros Hnn. unfold ClientA.createDelegation. run.
  rewrite (member_default_object _ _ Hnn).
  destruct (agent_delegate _ _) as [[d|e] x]; simpl; [|done].
  unfold member. destruct (nullish d); simpl; done.
Qed.

Lemma createDelegationB_run w audience abilities options :
  options ≠ VNull →
  ClientB.createDelegation audience abilities options w
  = delegation_run w audience abilities options
      (coalesce (get_prop (default_object options) "audienceMeta")
         (VObj [("name", VStr ""); ("type", VStr "device")])).
Proof.
  intros Hnn. unfold ClientB.createDelegation. run.
  rewrite (member_default_object _ _ Hnn).
  destruct (agent_delegate _ _) as [[d|e] x]; simpl; [|done].
  unfold member. destruct (nullish d); simpl; done.
Qed.
(** C3.  In either revision, for every audience, abilities and options
    (an object or [undefined]), [createDelegation] calls the agent's
    [delegate] once, with an argument whose [audience] is the passed
    principal, whose [abilities] are the passed abilities and whose
    [audienceMeta] is the metadata in use, the rest being the caller's
    options; when that call returns, the result is the [Delegation] built
    from its [root] and [blocks] and from [{ audience: audienceMeta }]; the
    metadata in use is [options.audienceMeta] whenever that is supplied. *)
Theorem createDelegation_wraps_delegate
    w audience abilities options
    (create : value host → value host → value host → M host X (value host)) :
  create = ClientA.createDelegation ∨ create = ClientB.createDelegation →
  options ≠ VNull →
  ∃ audienceMeta props,
    (nullish (get_prop (default_object options) "audienceMeta") = false →
       audienceMeta = get_prop (default_object options) "audienceMeta")
    ∧ Assoc.get "audience" props = Some audience
    ∧ Assoc.get "abilities" props = Some abilities
    ∧ Assoc.get "audienceMeta" props = Some audienceMeta
    ∧ (∀ k, k ≠ "abilities" → k ≠ "audience" → k ≠ "audienceMeta" →
         Assoc.get k props = Assoc.get k (own_props (default_object options)))
    ∧ trace (create audience abilities options w).2
      = (trace w ++ [EvAgent "delegate" [VObj props]])%list
    ∧ match agent_delegate (VObj props) (ext w) with
      | (Ok d, x) =>
          nullish d = false →
          (create audience abilities options w).1
          = Ok (VDelegation (get_prop d "root") (get_prop d "blocks")
                  (VObj [("audience", audienceMeta)]))
      | (Throw e, x) => (create audience abilities options w).1 = Throw e
      end.
Proof.
  intros Hrev Hnn.
  set (given := get_prop (default_object options) "audienceMeta").
  assert (∃ fallback,
             create audience abilities options w
             = delegation_run w audience abilities options (coalesce given fallback))
    as [fallback ->].
  { destruct Hrev as [-> | ->]; eexists.
    - by apply createDelegationA_run.
    - by apply createDelegationB_run. }
  destruct (delegate_options_fields (default_object options) abilities audience
              (coalesce given fallback))
    as (props & Harg & Habilities & Haudience & Hmeta & Hrest).
  exists (coalesce given fallback), props. cbv zeta. rewrite Harg.
  split_and!; try done.
  - unfold coalesce. by intros ->.
  - by destruct (agent_delegate (VObj props) (ext w)) as [[d|e] x].
  - destruct (agent_delegate (VObj props) (ext w)) as [[d|e] x]; simpl; [|done].
    intros Hd. unfold member. by rewrite Hd.
Qed.

(** What [createSpace] does in each revision, by what the agent's call
    gives. *)
Lemma createSpace_runs w name :
  match agent_createSpace name (ext w) with
  | (Ok d, x) =>
      ClientA.createSpace name w
      = ((if nullish d
          then Throw (TypeError "Cannot read properties of null or undefined")
          else Ok (VSpace (get_prop d "did") (get_prop d "meta"))),
         World x (heap w) (trace w ++ [EvAgent "createSpace" [name]]))
      ∧ ClientB.createSpace name w
        = (Ok VUndefined,
           World x (heap w) (trace w ++ [EvAgent "createSpace" [name]]))
  | (Throw e, x) =>
      ClientA.createSpace name w
      = (Throw e, World x (heap w) (trace w ++ [EvAgent "createSpace" [name]]))
      ∧ ClientB.createSpace name w
        = (Throw e, World x (heap w) (trace w ++ [EvAgent "createSpace" [name]]))
  end.
Proof.
  unfold ClientA.createSpace, ClientB.createSpace. run.
  destruct (agent_createSpace name (ext w)) as [[d|e] x]; simpl; [|done].
  unfold member. by destruct (nullish d).
Qed.

(** C2 (amended).  The two revisions of [Client] are the same function on
    [uploadFile], [uploadDirectory], [agent], [currentSpace],
    [setCurrentSpace], [spaces], [registerSpace], [addSpace], [proofs],
    [addProof] and [delegations], and on [createDelegation] whenever
    [options.audienceMeta] is supplied (and when [options] is [null], which
    throws in both).  When [options.audienceMeta] is omitted, the metadata
    passed to the agent's [delegate] and recorded in the [Delegation] is
    [{ name: 'agent', type: 'device' }] in the first revision and
    [{ name: '', type: 'device' }] in the second, all else being the same.
    [createSpace] makes the same call and leaves the same state in both,
    and returns the agent's failure in both when the call fails; when the
    call returns, the second revision returns [undefined], while the first
    returns the [Space] built from the [did] and [meta] of what was
    returned, and throws a [TypeError] when that is [null] or
    [undefined]. *)
Theorem revisions_agree_but_for_createSpace_and_default_meta (this : Base host) :
  ClientB.uploadFile this = ClientA.uploadFile this
  ∧ ClientB.uploadDirectory this = ClientA.uploadDirectory this
  ∧ ClientB.agent = ClientA.agent
  ∧ ClientB.currentSpace = ClientA.currentSpace
  ∧ ClientB.setCurrentSpace = ClientA.setCurrentSpace
  ∧ ClientB.spaces = ClientA.spaces
  ∧ ClientB.registerSpace = ClientA.registerSpace
  ∧ ClientB.addSpace = ClientA.addSpace
  ∧ ClientB.proofs = ClientA.proofs
  ∧ ClientB.addProof = ClientA.addProof
  ∧ ClientB.delegations = ClientA.delegations
  ∧ (∀ w audience abilities options,
       nullish (get_prop (default_object options) "audienceMeta") = false
       ∨ options = VNull →
       ClientB.createDelegation audience abilities options w
       = ClientA.createDelegation audience abilities options w)
  ∧ (∀ w audience abilities options,
       options ≠ VNull →
       nullish (get_prop (default_object options) "audienceMeta") = true →
       ClientA.createDelegation audience abilities options w
       = delegation_run w audience abilities options
           (VObj [("name", VStr "agent"); ("type", VStr "device")])
       ∧ ClientB.createDelegation audience abilities options w
         = delegation_run w audience abilities options
             (VObj [("name", VStr ""); ("type", VStr "device")]))
  ∧ (∀ w name,
       match agent_createSpace name (ext w) with
       | (Ok d, x) =>
           ClientA.createSpace name w
           = ((if nullish d
               then Throw (TypeError "Cannot read properties of null or undefined")
               else Ok (VSpace (get_prop d "did") (get_prop d "meta"))),
              World x (heap w) (trace w ++ [EvAgent "createSpace" [name]]))
           ∧ ClientB.createSpace name w
             = (Ok VUndefined,
                World x (heap w) (trace w ++ [EvAgent "createSpace" [name]]))
       | (Throw e, x) =>
           ClientA.createSpace name w
           = (Throw e,
              World x (heap w) (trace w ++ [EvAgent "createSpace" [name]]))
           ∧ ClientB.createSpace name w
             = (Throw e,
                World x (heap w) (trace w ++ [EvAgent "createSpace" [name]]))
       end).
Proof.
  split_and!; try reflexivity.
  - intros w audience abilities options [Hgiven | ->]; [|reflexivity].
    assert (options ≠ VNull) as Hnn by (by intros ->).
    rewrite createDelegationA_run, createDelegationB_run by done.
    unfold coalesce. by rewrite Hgiven.
  - intros w audience abilities options Hnn Hgiven.
    rewrite createDelegationA_run, createDelegationB_run by done.
    unfold coalesce. by rewrite Hgiven.
  - apply createSpace_runs.
Qed.
End Delegations.

(** ** [exportSettings] after [importSettings] *)
Section ExportSettings.
Context {host : Type} `{HostObjects host} `{Ucanto host}.
Implicit Types (v : value host) (p : host) (key formatted : string).

(** A document with one secret that converts is imported as the formatted
    principal under the same key. *)
Lemma import_single_secret settingsString key v p formatted :
  is_secret_key key = true →
  JSON_parse settingsString = Ok (VObj [(key, v)]) →
  toPrincipal v = Ok (VHost p) →
  SigningPrincipal_format (VHost p) = Ok formatted →
  importSettings settingsString = Ok [(key, VStr formatted)].
Proof.
  intros Hkey Hparse Hp Hf.
  rewrite (importSettings_loop _ _ Hparse); [|done].
  simpl. unfold import_key, member. simpl.
  rewrite Hkey, String.eqb_refl. simpl. unfold_outcome.
  by rewrite Hp, Hf.
Qed.

(** ['secret'] is handed to [SigningPrincipal.format] as it is stored. *)
Lemma export_secret_formats_stored v :
  exportSettings [("secret", v)]
  = (formatted ← SigningPrincipal_format v; Ok (VObj [("secret", VStr formatted)])).
Proof.
  unfold exportSettings, Map_get. simpl. unfold_outcome.
  by destruct (SigningPrincipal_format v).
Qed.

(** ['agent_secret'] and ['account_secret'] are parsed before they are
    formatted. *)
Lemma export_sibling_parses_stored key v :
  key = "agent_secret" ∨ key = "account_secret" →
  exportSettings [(key, v)]
  = (parsed ← SigningPrincipal_parse v;
     formatted ← SigningPrincipal_format (VHost parsed);
     Ok (VObj [(key, VStr formatted)])).
Proof.
  intros [-> | ->]; unfold exportSettings, Map_get; simpl; unfold_outcome;
    destruct (SigningPrincipal_parse v) as [parsed|]; try done;
    by destruct (SigningPrincipal_format (VHost parsed)).
Qed.

(** With a library whose [parse] reads back what [format] writes, the
    sibling keys survive import followed by export. *)
Lemma sibling_secret_round_trip settingsString key v p formatted :
  key = "agent_secret" ∨ key = "account_secret" →
  JSON_parse settingsString = Ok (VObj [(key, v)]) →
  toPrincipal v = Ok (VHost p) →
  SigningPrincipal_format (VHost p) = Ok formatted →
  SigningPrincipal_parse (VStr formatted) = Ok p →
  (settings ← importSettings settingsString; exportSettings settings)
  = Ok (VObj [(key, VStr formatted)]).
Proof.
  intros Hkey Hparse Hp Hf Hback.
  rewrite (import_single_secret _ key v p formatted); try done.
  - change (exportSettings [(key, VStr formatted)]
            = Ok (VObj [(key, VStr formatted)])).
    rewrite export_sibling_parses_stored by done.
    unfold_outcome. by rewrite Hback, Hf.
  - by destruct Hkey as [-> | ->].
Qed.

(** C1 (the defect).  Import a document whose ['secret'] is a valid
    principal: the map holds its formatted string.  [exportSettings] hands
    that string, not a principal, to [SigningPrincipal.format]; with a
    library whose [format] rejects a string, export after import throws
    instead of returning the secret. *)
Theorem export_after_import_rejects_secret settingsString v p formatted e :
  JSON_parse settingsString = Ok (VObj [("secret", v)]) →
  toPrincipal v = Ok (VHost p) →
  SigningPrincipal_format (VHost p) = Ok formatted →
  SigningPrincipal_format (VStr formatted) = Throw e →
  importSettings settingsString = Ok [("secret", VStr formatted)]
  ∧ (settings ← importSettings settingsString; exportSettings settings) = Throw e.
Proof.
  intros Hparse Hp Hf Hstring.
  rewrite (import_single_secret _ "secret" v p formatted) by done.
  split; [done|].
  change (exportSettings [("secret", VStr formatted)] = Throw e).
  rewrite export_secret_formats_stored. unfold_outcome. by rewrite Hstring.
Qed.
End ExportSettings.

(** ** Stores written in a loop *)
Section Collect.
Context {V E : Type}.
Implicit Types (m acc : list (string * V)) (k : string).

Lemma set_absent k (v : V) m :
  k ∉ Assoc.keys m → Assoc.set k v m = (m ++ [(k, v)])%list.
Proof.
  unfold Assoc.keys. induction m as [|[k0 v0] m IH]; simpl; [done|].
  intros Hk. destruct (String.eqb k0 k) eqn:Hk0.
  - apply String.eqb_eq in Hk0 as ->. exfalso. apply Hk. left.
  - rewrite IH; [done|]. intros ?. apply Hk. by right.
Qed.

Lemma has_false_keys k m : Assoc.has k m = false ↔ k ∉ Assoc.keys m.
Proof.
  rewrite <- AssocFacts.has_keys. by destruct (Assoc.has k m).
Qed.

Lemma get_app_absent k m (m' : list (string * V)) :
  k ∉ Assoc.keys m → Assoc.get k (m ++ m') = Assoc.get k m'.
Proof.
  unfold Assoc.keys. induction m as [|[k0 v0] m IH]; simpl; [done|].
  intros Hk. destruct (String.eqb k0 k) eqn:Hk0.
  - apply String.eqb_eq in Hk0 as ->. exfalso. apply Hk. left.
  - apply IH. intros ?. apply Hk. by right.
Qed.

Lemma get_member k (v : V) m :
  NoDup (Assoc.keys m) → (k, v) ∈ m → Assoc.get k m = Some v.
Proof.
  unfold Assoc.keys. induction m as [|[k0 v0] m IH]; simpl.
  - by intros _ ?%elem_of_nil.
  - intros [Hk0 Hm]%NoDup_cons [[= -> ->]|Hin]%elem_of_cons.
    + by rewrite String.eqb_refl.
    + destruct (String.eqb k0 k) eqn:Hk; [|by apply IH].
      apply String.eqb_eq in Hk as ->. exfalso. apply Hk0.
      apply (list_elem_of_fmap_2 fst) in Hin. exact Hin.
Qed.

(** A loop that computes one value per entry and writes it under the key
    of the entry, over entries with distinct keys none of which is in the
    store yet: when it completes, every entry's value was computed and the
    store has grown by them, in order. *)
Lemma foldM_collects (g : string * E → outcome V) (entries : list (string * E)) :
  NoDup (Assoc.keys entries) →
  ∀ acc out,
    (∀ k, k ∈ Assoc.keys entries → k ∉ Assoc.keys acc) →
    foldM (fun acc e => y ← g e; Ok (Assoc.set e.1 y acc)) acc entries = Ok out →
    ∃ ys, Forall2 (fun e y => g e = Ok y) entries ys
          ∧ out = (acc ++ zip (Assoc.keys entries) ys)%list.
Proof.
  induction entries as [|[k x] entries IH]; intros Hnodup acc out Hfresh.
  - intros [= <-]. exists []. split; [constructor|]. by rewrite app_nil_r.
  - apply NoDup_cons in Hnodup as [Hk Hnodup].
    intros (acc1 & Hstep & Hrest)%foldM_cons_ok.
    unfold_outcome. destruct (g (k, x)) as [y|] eqn:Hy; [|done].
    injection Hstep as <-. simpl in Hrest.
    rewrite set_absent in Hrest by (apply Hfresh; left).
    apply IH in Hrest as (ys & Hys & ->); [|done|].
    + exists (y :: ys). split; [by constructor|].
      by rewrite <- app_assoc.
    + intros k' Hk'. unfold Assoc.keys. rewrite fmap_app.
      intros [Hacc|Hnew]%elem_of_app.
      * apply (Hfresh k'); [by right | done].
      * apply list_elem_of_singleton in Hnew as ->. by apply Hk.
Qed.

(** The other way round: when every value can be computed the loop
    completes. *)
Lemma foldM_collects_ok (g : string * E → outcome V) (entries : list (string * E)) ys :
  NoDup (Assoc.keys entries) →
  Forall2 (fun e y => g e = Ok y) entries ys →
  foldM (fun acc e => y ← g e; Ok (Assoc.set e.1 y acc)) [] entries
  = Ok (zip (Assoc.keys entries) ys).
Proof.
  intros Hnodup Hys.
  destruct (foldM _ [] entries) as [out|e] eqn:Hloop.
  - apply foldM_collects in Hloop as (ys' & Hys' & ->); [|done|].
    + f_equal. simpl. f_equal. revert ys' Hys'.
      induction Hys as [|e y entries ys He _ IH]; intros ys' Hys';
        inversion Hys' as [|? y' ? ys'' He' Hrest]; subst; [done|].
      f_equal; [congruence|].
      apply IH; [by apply NoDup_cons in Hnodup as [_ ?] | done].
    + intros k _ ?%elem_of_nil. done.
  - apply foldM_throws in Hloop as (acc & e0 & Hin & Hthrow).
    apply list_elem_of_lookup in Hin as [i Hi].
    destruct (Forall2_lookup_l _ _ _ _ _ Hys Hi) as (y & _ & Hy).
    unfold_outcome. by rewrite Hy in Hthrow.
Qed.
End Collect.

(** ** What [importSettings] builds *)
Section ImportedMap.
Context {host : Type} `{HostObjects host} `{Ucanto host}.
Implicit Types (imported v : value host) (settings : obj host) (key k : string).

Lemma foldM_ext {A B} (f g : A → B → outcome A) l a :
  (∀ a x, f a x = g a x) → foldM f a l = foldM g a l.
Proof.
  intros Hfg. revert a. induction l as [|x l IH]; intros a; simpl; [done|].
  rewrite Hfg. unfold_outcome. by destruct (g a x).
Qed.

Lemma converts_cases v :
  (converts v = false ∧ toPrincipal v = Ok VNull)
  ∨ (converts v = true ∧ ∃ p, toPrincipal v = Ok (VHost p)).
Proof.
  unfold converts.
  destruct (toPrincipal_cases v) as [-> | [p ->]]; [by left | right; eauto].
Qed.

(** One completed iteration writes the key exactly when the key is not a
    secret or its value converts. *)
Lemma import_key_writes imported settings key settings' :
  nullish imported = false →
  import_key imported settings key = Ok settings' →
  if negb (is_secret_key key) || converts (get_prop imported key)
  then ∃ v, settings' = Assoc.set key v settings
  else settings' = settings.
Proof.
  intros Hnn Hstep.
  apply import_key_ok in Hstep as [(-> & Hs & Hnull)|(v & -> & Hsecret & _)];
    [|  |done].
  - rewrite Hs. simpl. unfold converts. by rewrite Hnull.
  - destruct (is_secret_key key); simpl; [|by eauto].
    destruct (Hsecret eq_refl) as (p & ? & Hp & _).
    unfold converts. rewrite Hp. simpl. eauto.
Qed.

Lemma import_loop_keys imported keys :
  nullish imported = false →
  NoDup keys →
  ∀ settings settings',
    (∀ k, k ∈ keys → k ∉ Assoc.keys settings) →
    foldM (import_key imported) settings keys = Ok settings' →
    Assoc.keys settings'
    = (Assoc.keys settings
       ++ filter (fun key => negb (is_secret_key key)
                             || converts (get_prop imported key)) keys)%list.
Proof.
  intros Hnn. induction keys as [|key keys IH]; intros Hnodup st st' Hfresh.
  - intros [= <-]. by rewrite filter_nil, app_nil_r.
  - apply NoDup_cons in Hnodup as [Hkey Hnodup].
    intros (st1 & Hstep & Hrest)%foldM_cons_ok.
    apply import_key_writes in Hstep; [|done].
    destruct (negb (is_secret_key key) || converts (get_prop imported key))
      eqn:Hkept.
    + destruct Hstep as [v ->].
      rewrite filter_cons_True by (by rewrite Hkept).
      apply IH in Hrest; [|done|].
      * rewrite Hrest, AssocFacts.keys_set_absent, <- app_assoc; [done|].
        apply has_false_keys, Hfresh. left.
      * intros k Hk. rewrite AssocFacts.keys_set_absent
          by (apply has_false_keys, Hfresh; left).
        intros [? | ->%list_elem_of_singleton]%elem_of_app; [|done].
        apply (Hfresh k); [by right | done].
    + subst st1. rewrite filter_cons_False by (rewrite Hkept; intros []).
      apply IH in Hrest; [done..|].
      intros k Hk. apply Hfresh. by right.
Qed.

(** The settings map lists the keys of the document in the order of the
    document, leaving out the secrets that do not convert: no key is
    invented, moved or repeated. *)
Theorem importSettings_keys_in_document_order settingsString imported settings :
  JSON_parse settingsString = Ok imported →
  NoDup (Assoc.keys (own_props imported)) →
  importSettings settingsString = Ok settings →
  Assoc.keys settings
  = filter (fun key => negb (is_secret_key key)
                       || converts (get_prop imported key))
      (Assoc.keys (own_props imported))
  ∧ NoDup (Assoc.keys settings).
Proof.
  intros Hparse Hnodup Himport.
  assert (Assoc.keys settings
          = filter (fun key => negb (is_secret_key key)
                               || converts (get_prop imported key))
              (Assoc.keys (own_props imported))) as Hkeys.
  { destruct (truthy imported) eqn:Ht.
    - rewrite (importSettings_loop _ _ Hparse Ht) in Himport.
      apply import_loop_keys in Himport; [done| |done|].
      + by apply truthy_not_nullish.
      + by intros k _ ?%elem_of_nil.
    - rewrite (importSettings_falsy _ _ Hparse Ht) in Himport.
      injection Himport as <-. by rewrite (falsy_no_props _ Ht). }
  split; [done|]. rewrite Hkeys. by apply NoDup_filter.
Qed.

(** What a completed loop wrote: each key of the map is one of the keys the
    loop ran over, with the value its branch computes. *)
Lemma import_loop_holds imported keys settings k v :
  nullish imported = false →
  foldM (import_key imported) [] keys = Ok settings →
  Assoc.get k settings = Some v →
  k ∈ keys
  ∧ (is_secret_key k = true →
       ∃ p formatted,
         toPrincipal (get_prop imported k) = Ok (VHost p)
         ∧ SigningPrincipal_format (VHost p) = Ok formatted
         ∧ v = VStr formatted)
  ∧ (k = "delegations" →
       ∃ ds, import_delegations (get_prop imported "delegations") = Ok ds
             ∧ v = ds)
  ∧ (is_secret_key k = false → k ≠ "delegations" → v = get_prop imported k).
Proof.
  intros Hnn Himport. revert k v.
  refine (foldM_preserves (import_key imported)
            (fun st => ∀ k v, Assoc.get k st = Some v → _)
            keys _ [] settings _ Himport);
    [|done].
  intros st key st' Hin Hst Hstep k v.
  apply import_key_ok in Hstep as [(-> & _)|(v' & -> & Hv')]; [by apply Hst| |done].
  destruct (decide (key = k)) as [->|Hne].
  - rewrite AssocFacts.get_set_eq. intros [= <-]. by split.
  - rewrite AssocFacts.get_set_ne by done. apply Hst.
Qed.

(** Whatever the settings map holds came from the document: every key of
    the map is a key of the document; under a secret key the map holds the
    formatted string of the principal the value converted to (never the
    principal itself, never the raw value); under ['delegations'] the
    imported delegations; under any other key the value of the document. *)
Theorem importSettings_holds_only_imported settingsString imported settings k v :
  JSON_parse settingsString = Ok imported →
  importSettings settingsString = Ok settings →
  Assoc.get k settings = Some v →
  k ∈ Assoc.keys (own_props imported)
  ∧ (is_secret_key k = true →
       ∃ p formatted,
         toPrincipal (get_prop imported k) = Ok (VHost p)
         ∧ SigningPrincipal_format (VHost p) = Ok formatted
         ∧ v = VStr formatted)
  ∧ (k = "delegations" →
       ∃ ds, import_delegations (get_prop imported "delegations") = Ok ds
             ∧ v = ds)
  ∧ (is_secret_key k = false → k ≠ "delegations" → v = get_prop imported k).
Proof.
  intros Hparse Himport.
  destruct (truthy imported) eqn:Ht.
  - rewrite (importSettings_loop _ _ Hparse Ht) in Himport.
    by apply import_loop_holds; [apply truthy_not_nullish|].
  - rewrite (importSettings_falsy _ _ Hparse Ht) in Himport.
    by injection Himport as <-.
Qed.

(** What the import loop computes for one entry of the delegations. *)
Local Abbreviation imported_delegation :=
  (fun e : string * value host =>
     ucan ← UCAN_parse (opt_member e.2 "ucan");
     root ← UCAN_write (VHost ucan);
     created ← Delegation_create (VObj [("root", VHost root)]);
     alias ← member e.2 "alias";
     Ok (VObj [("ucan", VHost created); ("alias", alias)])).

(** Assignments to an object that a literal made. *)
Lemma literal_like_own (o : value host) :
  literal_like o = true → Assoc.has "__proto__" (own_props o) = false.
Proof.
  destruct o; simpl; try done.
  - by intros ->%negb_true_iff.
  - by intros [->%negb_true_iff _]%andb_true_iff.
Qed.

Lemma set_prop_proto (o y : value host) :
  literal_like o = true →
  is_object_or_null y = true →
  set_prop o "__proto__" y = VObjProto y (own_props o).
Proof.
  intros Ho Hy. unfold set_prop.
  destruct o; try done; simpl in *; by rewrite Ho, Hy.
Qed.

Lemma set_prop_other (o y : value host) k :
  literal_like o = true →
  adds_property k = true →
  Assoc.has k (own_props o) = false →
  own_props (set_prop o k y) = (own_props o ++ [(k, y)])%list
  ∧ replaced_prototype (set_prop o k y) = replaced_prototype o
  ∧ literal_like (set_prop o k y) = true.
Proof.
  unfold adds_property. intros Ho Hk%negb_true_iff Hfresh.
  assert (k ≠ "__proto__") as Hne by (by apply String.eqb_neq).
  unfold set_prop. rewrite Hk.
  destruct o; try done; simpl in *;
    rewrite set_absent by (by apply has_false_keys);
    (split_and!; [done..|]);
    unfold Assoc.has in *; rewrite get_app_absent;
    try (apply has_false_keys; unfold Assoc.has;
         by destruct (Assoc.get "__proto__" props));
    simpl; apply String.eqb_neq in Hne; rewrite Hne; simpl.
  - by destruct (Assoc.get "__proto__" props).
  - by destruct (Assoc.get "__proto__" props).
Qed.

Lemma get_zip_absent {V} k (ks : list string) (ys : list V) :
  k ∉ ks → Assoc.get k (zip ks ys) = None.
Proof.
  revert ys. induction ks as [|k0 ks IH]; intros [|y ys] Hk; simpl; try done.
  destruct (String.eqb k0 k) eqn:Hk0.
  - apply String.eqb_eq in Hk0 as ->. exfalso. apply Hk. left.
  - apply IH. intros ?. apply Hk. by right.
Qed.

(** A loop that computes an object per entry and assigns it under the key
    of the entry, over entries with distinct keys none of which the object
    has: when it completes, every entry's value was computed; the object
    has grown by them, in order, the entry under [__proto__] apart, which
    has become its prototype instead. *)
Lemma foldM_assigns (g : string * value host → outcome (value host))
    (entries : obj host) :
  (∀ e y, g e = Ok y → is_object_or_null y = true ∧ literal_like y = true) →
  NoDup (Assoc.keys entries) →
  ∀ acc out,
    literal_like acc = true →
    (∀ k, k ∈ Assoc.keys entries → k ∉ Assoc.keys (own_props acc)) →
    foldM (fun acc e => y ← g e; Ok (set_prop acc e.1 y)) acc entries = Ok out →
    ∃ ys, Forall2 (fun e y => g e = Ok y) entries ys
          ∧ own_props out
            = (own_props acc
               ++ filter (fun e => adds_property e.1) (zip (Assoc.keys entries) ys))%list
          ∧ replaced_prototype out
            = from_option Some (replaced_prototype acc)
                (Assoc.get "__proto__" (zip (Assoc.keys entries) ys))
          ∧ literal_like out = true.
Proof.
  intros Hobject.
  induction entries as [|[k x] entries IH]; intros Hnodup acc out Hacc Hfresh.
  - intros [= <-]. exists []. split; [constructor|]. simpl.
    by rewrite app_nil_r.
  - apply NoDup_cons in Hnodup as [Hk Hnodup].
    intros (acc1 & Hstep & Hrest)%foldM_cons_ok.
    unfold_outcome. destruct (g (k, x)) as [y|] eqn:Hy; [|done].
    injection Hstep as <-. simpl in Hrest.
    destruct (Hobject _ _ Hy) as [Hy_object Hy_literal].
    destruct (adds_property k) eqn:Hkept.
    + destruct (set_prop_other acc y k Hacc Hkept) as (Hown & Hproto & Hliteral).
      { apply has_false_keys, Hfresh. left. }
      apply IH in Hrest as (ys & Hys & Hout & Hout_proto & Hout_literal);
        [|done|done|].
      * exists (y :: ys). split; [by constructor|].
        split_and!; [|  |done].
        -- rewrite Hout, Hown, <- app_assoc. simpl.
           by rewrite filter_cons_True by (by simpl; rewrite Hkept).
        -- rewrite Hout_proto, Hproto. simpl.
           unfold adds_property in Hkept. apply negb_true_iff in Hkept.
           by rewrite Hkept.
      * intros k' Hk'. rewrite Hown. unfold Assoc.keys. rewrite fmap_app.
        intros [Hin | Hin%list_elem_of_singleton]%elem_of_app.
        -- apply (Hfresh k'); [by right | done].
        -- simpl in Hin. subst k'. by apply Hk.
    + unfold adds_property in Hkept.
      apply negb_false_iff, String.eqb_eq in Hkept. subst k.
      rewrite set_prop_proto in Hrest by done.
      apply IH in Hrest as (ys & Hys & Hout & Hout_proto & Hout_literal);
        [|done| |].
      * exists (y :: ys). split; [by constructor|].
        split_and!; [|  |done].
        -- rewrite Hout. simpl. by rewrite filter_cons_False by (by intros []).
        -- rewrite Hout_proto. simpl. by rewrite get_zip_absent.
      * simpl. rewrite (literal_like_own _ Hacc). simpl.
        destruct y; try done; simpl in Hy_literal; done.
      * intros k' Hk'. simpl. apply Hfresh. by right.
Qed.

(** Without a key [__proto__] the loop is the loop on the properties. *)
Lemma foldM_assigns_plain (g : string * value host → outcome (value host))
    (entries : obj host) :
  "__proto__" ∉ Assoc.keys entries →
  ∀ acc,
    foldM (fun acc e => y ← g e; Ok (set_prop acc e.1 y)) (VObj acc) entries
    = VObj <$> foldM (fun acc e => y ← g e; Ok (Assoc.set e.1 y acc)) acc entries.
Proof.
  induction entries as [|[k x] entries IH]; intros Hproto acc; simpl; [done|].
  unfold_outcome. destruct (g (k, x)) as [y|]; [|done]. simpl.
  assert (String.eqb k "__proto__" = false) as Hk.
  { apply String.eqb_neq. intros ->. apply Hproto. left. }
  unfold set_prop at 1. rewrite Hk. simpl.
  apply IH. intros ?. apply Hproto. by right.
Qed.

Lemma import_delegation_assigns (acc : value host) (e : string * value host) :
  import_delegation acc e = (y ← imported_delegation e; Ok (set_prop acc e.1 y)).
Proof.
  destruct e as [did del]. unfold import_delegation. simpl. unfold_outcome.
  destruct (UCAN_parse _); [|done]. destruct (UCAN_write _); [|done].
  destruct (Delegation_create _); [|done]. by destruct (member del "alias").
Qed.

Lemma import_delegations_collects v ds :
  NoDup (Assoc.keys (own_props v)) →
  "__proto__" ∉ Assoc.keys (own_props v) →
  import_delegations v = Ok ds →
  ∃ ys, Forall2 (fun e y => imported_delegation e = Ok y) (own_props v) ys
        ∧ ds = VObj (zip (Assoc.keys (own_props v)) ys).
Proof.
  intros Hnodup Hproto. unfold import_delegations, Object_entries.
  destruct (nullish v); [done|]. unfold_outcome.
  rewrite (foldM_ext _ (fun acc e => y ← imported_delegation e;
                                     Ok (set_prop acc e.1 y)))
    by apply import_delegation_assigns.
  rewrite foldM_assigns_plain by done. unfold_outcome.
  destruct (foldM _ [] (own_props v)) as [out|] eqn:Hloop; [|done].
  apply foldM_collects in Hloop as (ys & Hys & ->);
    [|done|by intros k _ ?%elem_of_nil].
  intros [= <-]. by exists ys.
Qed.

(** An entry that was imported was a value with properties, and its token
    went through the library. *)
Lemma imported_delegation_ok (did : string) (del y : value host) :
  imported_delegation (did, del) = Ok y →
  nullish del = false
  ∧ ∃ ucan root created,
      UCAN_parse (get_prop del "ucan") = Ok ucan
      ∧ UCAN_write (VHost ucan) = Ok root
      ∧ Delegation_create (VObj [("root", VHost root)]) = Ok created
      ∧ y = VObj [("ucan", VHost created); ("alias", get_prop del "alias")].
Proof.
  unfold member, opt_member. simpl. unfold_outcome.
  destruct (nullish del) eqn:Hdel.
  { destruct (UCAN_parse _); [|done]. destruct (UCAN_write _); [|done].
    by destruct (Delegation_create _). }
  destruct (UCAN_parse _) as [ucan|] eqn:Hucan; [|done].
  destruct (UCAN_write _) as [root|] eqn:Hroot; [|done].
  destruct (Delegation_create _) as [created|] eqn:Hcreated; [|done].
  intros [= <-]. split; [done|]. by exists ucan, root, created.
Qed.

Lemma keys_zip {V} (entries : obj host) (ys : list V) :
  length entries = length ys →
  Assoc.keys (zip (Assoc.keys entries) ys) = Assoc.keys entries.
Proof.
  intros Hlen. unfold Assoc.keys. rewrite fst_zip; [done|].
  by rewrite length_fmap, Hlen.
Qed.

Lemma keys_filter_zip {V} (ks : list string) (ys : list V) :
  length ks = length ys →
  Assoc.keys (filter (fun e => adds_property e.1) (zip ks ys))
  = filter (fun k => adds_property k) ks.
Proof.
  revert ys. induction ks as [|k ks IH]; intros [|y ys] Hlen; simpl in *;
    try done.
  injection Hlen as Hlen.
  destruct (adds_property k) eqn:Hk.
  - rewrite !filter_cons_True by (by simpl; rewrite Hk). simpl.
    by rewrite (IH ys Hlen).
  - rewrite !filter_cons_False by (simpl; rewrite Hk; intros []).
    by apply IH.
Qed.

(** What the loop over the delegations leaves: the entries under their
    DIDs, the one under [__proto__] apart, which is the prototype. *)
Lemma import_delegations_assigns v ds :
  NoDup (Assoc.keys (own_props v)) →
  import_delegations v = Ok ds →
  ∃ ys, Forall2 (fun e y => imported_delegation e = Ok y) (own_props v) ys
        ∧ own_props ds
          = filter (fun e => adds_property e.1) (zip (Assoc.keys (own_props v)) ys)
        ∧ replaced_prototype ds
          = Assoc.get "__proto__" (zip (Assoc.keys (own_props v)) ys)
        ∧ literal_like ds = true.
Proof.
  intros Hnodup. unfold import_delegations, Object_entries.
  destruct (nullish v); [done|]. unfold_outcome.
  rewrite (foldM_ext _ (fun acc e => y ← imported_delegation e;
                                     Ok (set_prop acc e.1 y)))
    by apply import_delegation_assigns.
  intros (ys & Hys & Hown & Hproto & Hliteral)%foldM_assigns; try done.
  - exists ys. split_and!; try done.
    rewrite Hproto. simpl. by destruct (Assoc.get _ _).
  - intros [did del] y (_ & ? & ? & ? & _ & _ & _ & ->)%imported_delegation_ok.
    done.
  - by intros k _ ?%elem_of_nil.
Qed.

(** The delegations are imported one entry per DID, in the order of the
    document: each entry was a value with properties, its token was parsed,
    written and wrapped by the library, and the imported entry holds that
    delegation beside the alias of the document, and nothing else.  A key
    [__proto__] in the document is the exception: what is built for it
    becomes the prototype of the imported object, and no entry is added.
    Without such a key the imported object is a plain object. *)
Theorem import_delegations_one_per_did v ds :
  NoDup (Assoc.keys (own_props v)) →
  import_delegations v = Ok ds →
  Assoc.keys (own_props ds)
  = filter (fun did => negb (String.eqb did "__proto__")) (Assoc.keys (own_props v))
  ∧ ("__proto__" ∉ Assoc.keys (own_props v) → ds = VObj (own_props ds))
  ∧ ∀ did del,
      (did, del) ∈ own_props v →
      nullish del = false
      ∧ ∃ ucan root created,
          UCAN_parse (get_prop del "ucan") = Ok ucan
          ∧ UCAN_write (VHost ucan) = Ok root
          ∧ Delegation_create (VObj [("root", VHost root)]) = Ok created
          ∧ if String.eqb did "__proto__" then
              ds = VObjProto (VObj [("ucan", VHost created);
                                    ("alias", get_prop del "alias")])
                     (own_props ds)
            else
              Assoc.get did (own_props ds)
              = Some (VObj [("ucan", VHost created);
                            ("alias", get_prop del "alias")]).
Proof.
  intros Hnodup (ys & Hys & Hown & Hproto & Hliteral)%import_delegations_assigns;
    [|done].
  pose proof (Forall2_length _ _ _ Hys) as Hlen.
  assert (length (Assoc.keys (own_props v)) = length ys) as Hlen'
    by (unfold Assoc.keys; by rewrite length_fmap).
  assert (Assoc.keys (own_props ds)
          = filter (fun did => negb (String.eqb did "__proto__"))
              (Assoc.keys (own_props v))) as Hkeys
    by (rewrite Hown; by apply keys_filter_zip).
  split; [exact Hkeys|]. split.
  { intros Habsent. rewrite get_zip_absent in Hproto by done.
    destruct ds; try done. }
  intros did del Hin.
  apply list_elem_of_lookup in Hin as [i Hi].
  destruct (Forall2_lookup_l _ _ _ _ _ Hys Hi) as (y & Hy & Hg).
  apply imported_delegation_ok in Hg
    as (Hdel & ucan & root & created & ? & ? & ? & ->).
  split; [done|]. exists ucan, root, created. split_and!; try done.
  assert ((did, VObj [("ucan", VHost created); ("alias", get_prop del "alias")])
          ∈ zip (Assoc.keys (own_props v)) ys) as Hzip.
  { apply list_elem_of_lookup. exists i. apply lookup_zip_Some.
    split; [|done]. unfold Assoc.keys. by rewrite list_lookup_fmap, Hi. }
  destruct (String.eqb did "__proto__") eqn:Hdid.
  - apply String.eqb_eq in Hdid. subst did.
    rewrite (get_member "__proto__" _ _ (eq_ind_r NoDup Hnodup (keys_zip _ _ Hlen))
               Hzip) in Hproto.
    destruct ds; try done. simpl in *. by injection Hproto as ->.
  - apply get_member.
    + rewrite Hkeys. by apply NoDup_filter.
    + rewrite Hown. apply list_elem_of_filter. split; [|done].
      simpl. unfold adds_property. by rewrite Hdid.
Qed.

(** *** Export after import

    What follows assumes of the libraries that they read back what they
    write: [SigningPrincipal.parse] the string [SigningPrincipal.format]
    gives for a principal; and, for a token [UCAN.parse] accepts, that
    [Delegation.create] keeps the root block it is given and that
    [UCAN.format] of the delegation [Delegation.import] rebuilds from that
    block is the token. *)
Section RoundTrip.
Hypothesis principal_law :
  ∀ (secret : value host) p formatted,
    toPrincipal secret = Ok (VHost p) →
    SigningPrincipal_format (VHost p) = Ok formatted →
    ∃ p', SigningPrincipal_parse (VStr formatted) = Ok p'
          ∧ SigningPrincipal_format (VHost p') = Ok formatted.
Hypothesis token_law :
  ∀ (token : value host) ucan root created,
    UCAN_parse token = Ok ucan →
    UCAN_write (VHost ucan) = Ok root →
    Delegation_create (VObj [("root", VHost root)]) = Ok created →
    ∃ jwt rebuilt,
      token = VStr jwt
      ∧ get_prop (VHost created) "root" = VHost root
      ∧ Delegation_import (VArr [VHost root]) = Ok rebuilt
      ∧ UCAN_format (VHost rebuilt) = Ok jwt.

(** What the export loop computes for one entry of the delegations. *)
Local Abbreviation exported_delegation :=
  (fun e : string * value host =>
     rebuilt ← Delegation_import (VArr [opt_member (opt_member e.2 "ucan") "root"]);
     ucan ← UCAN_format (VHost rebuilt);
     alias ← member e.2 "alias";
     Ok (VObj [("ucan", VStr ucan); ("alias", alias)])).

(** What comes back for one entry of the document. *)
Local Abbreviation token_and_alias :=
  (fun e : string * value host =>
     VObj [("ucan", get_prop e.2 "ucan"); ("alias", get_prop e.2 "alias")]).

Lemma delegation_back (did : string) (del y : value host) :
  imported_delegation (did, del) = Ok y →
  exported_delegation (did, y) = Ok (token_and_alias (did, del)).
Proof.
  intros (Hdel & ucan & root & created & Hucan & Hroot & Hcreated & ->)
    %imported_delegation_ok.
  destruct (token_law _ _ _ _ Hucan Hroot Hcreated)
    as (jwt & rebuilt & Htoken & Hkept & Himported & Hformat).
  simpl. unfold member, opt_member. simpl.
  change (host_get created "root") with (get_prop (VHost created) "root").
  rewrite Hkept, Himported. unfold_outcome. by rewrite Hformat, Htoken.
Qed.

Lemma delegations_back v ds :
  NoDup (Assoc.keys (own_props v)) →
  "__proto__" ∉ Assoc.keys (own_props v) →
  import_delegations v = Ok ds →
  nullish ds = false
  ∧ foldM export_delegation (VObj []) (own_props ds)
    = Ok (VObj (zip (Assoc.keys (own_props v)) (token_and_alias <$> own_props v))).
Proof.
  intros Hnodup Hproto (ys & Hys & ->)%import_delegations_collects; [|done..].
  split; [done|].
  pose proof (Forall2_length _ _ _ Hys) as Hlen.
  rewrite (foldM_ext _ (fun acc e => y ← exported_delegation e;
                                     Ok (set_prop acc e.1 y))); cycle 1.
  { intros acc [did del]. unfold export_delegation. simpl. unfold_outcome.
    destruct (Delegation_import _); [|done]. destruct (UCAN_format _); [|done].
    by destruct (member del "alias"). }
  cbn [own_props].
  rewrite foldM_assigns_plain by (by rewrite keys_zip).
  rewrite (foldM_collects_ok _ _ (token_and_alias <$> own_props v)).
  - by rewrite keys_zip.
  - by rewrite keys_zip.
  - clear Hnodup Hproto Hlen.
    induction Hys as [|[did del] y entries ys Hy _ IH]; simpl.
    + constructor.
    + constructor; [|exact IH]. by apply delegation_back in Hy.
Qed.

Lemma tokens_and_aliases (entries : obj host) :
  NoDup (Assoc.keys entries) →
  Assoc.keys (zip (Assoc.keys entries) (token_and_alias <$> entries))
  = Assoc.keys entries
  ∧ ∀ did del,
      (did, del) ∈ entries →
      Assoc.get did (zip (Assoc.keys entries) (token_and_alias <$> entries))
      = Some (VObj [("ucan", get_prop del "ucan"); ("alias", get_prop del "alias")]).
Proof.
  intros Hnodup.
  assert (Assoc.keys (zip (Assoc.keys entries) (token_and_alias <$> entries))
          = Assoc.keys entries) as Hkeys
    by (apply keys_zip; by rewrite length_fmap).
  split; [done|]. intros did del Hin.
  apply get_member; [by rewrite Hkeys|].
  apply list_elem_of_lookup in Hin as [i Hi].
  apply list_elem_of_lookup. exists i. apply lookup_zip_Some.
  unfold Assoc.keys. by rewrite !list_lookup_fmap, Hi.
Qed.

(** How a sibling secret stands in the imported map: absent, and then the
    document has no value under it that converts; or present as a string
    that the library parses and formats back to itself. *)
Lemma imported_sibling imported keys settings key :
  nullish imported = false →
  is_secret_key key = true →
  foldM (import_key imported) [] keys = Ok settings →
  (Assoc.has key settings = false
   ∧ ∀ p, key ∈ keys → toPrincipal (get_prop imported key) = Ok (VHost p) → False)
  ∨ (∃ p p' formatted,
       Assoc.get key settings = Some (VStr formatted)
       ∧ key ∈ keys
       ∧ toPrincipal (get_prop imported key) = Ok (VHost p)
       ∧ SigningPrincipal_format (VHost p) = Ok formatted
       ∧ SigningPrincipal_parse (VStr formatted) = Ok p'
       ∧ SigningPrincipal_format (VHost p') = Ok formatted).
Proof.
  intros Hnn Hkey Himport.
  destruct (Assoc.get key settings) as [v|] eqn:Hget.
  - right.
    destruct (import_loop_holds _ _ _ _ _ Hnn Himport Hget) as (Hin & Hsecret & _).
    destruct (Hsecret Hkey) as (p & formatted & Hp & Hf & ->).
    destruct (principal_law _ _ _ Hp Hf) as (p' & Hback & Hagain).
    by exists p, p', formatted.
  - left. split; [unfold Assoc.has; by rewrite Hget|].
    intros p Hin Hp.
    destruct (import_loop_writes imported keys key (fun _ => True) Hnn Hin)
      with (2 := Himport) as (v & Hv & _); [|congruence].
    intros st st' Hstep.
    apply import_key_ok in Hstep as [(_ & _ & ?)|(v & -> & _)];
      [congruence| |done].
    by exists v.
Qed.

Lemma imported_delegations imported keys settings :
  nullish imported = false →
  foldM (import_key imported) [] keys = Ok settings →
  (Assoc.has "delegations" settings = false ∧ "delegations" ∉ keys)
  ∨ (∃ ds, Assoc.get "delegations" settings = Some ds
           ∧ "delegations" ∈ keys
           ∧ import_delegations (get_prop imported "delegations") = Ok ds).
Proof.
  intros Hnn Himport.
  destruct (Assoc.get "delegations" settings) as [v|] eqn:Hget.
  - right.
    destruct (import_loop_holds _ _ _ _ _ Hnn Himport Hget) as (Hin & _ & Hd & _).
    destruct (Hd eq_refl) as (ds & Hds & ->). by exists ds.
  - left. split; [unfold Assoc.has; by rewrite Hget|].
    intros Hin.
    destruct (import_loop_writes imported keys "delegations" (fun _ => True)
                Hnn Hin) with (2 := Himport) as (v & Hv & _); [|congruence].
    intros st st' Hstep.
    apply import_key_ok in Hstep as [(_ & ? & _)|(v & -> & _)];
      [by rewrite delegations_not_secret in *| |done].
    by exists v.
Qed.
Lemma get_has (settings : obj host) k v :
  Assoc.get k settings = Some v →
  Assoc.has k settings = true ∧ Map_get settings k = v.
Proof. intros Hget. unfold Assoc.has, Map_get. by rewrite Hget. Qed.

(** Export inverts import, the key ['secret'] apart.  For a document that
    [importSettings] accepts and that leaves no ['secret'] in the map, whose
    delegations have distinct DIDs, none of them [__proto__] (which names no
    entry but the prototype): [exportSettings] returns an object that
    holds, under ['agent_secret'] and ['account_secret'], the formatted
    principal of the document's value whenever that converts; under
    ['delegations'], for every DID of the document and in its order, the
    token and the alias of the document; and no key but these three, each
    only if the document has it. *)
Theorem export_inverts_import_but_for_secret settingsString imported settings :
  JSON_parse settingsString = Ok imported →
  importSettings settingsString = Ok settings →
  Assoc.has "secret" settings = false →
  NoDup (Assoc.keys (own_props (get_prop imported "delegations"))) →
  "__proto__" ∉ Assoc.keys (own_props (get_prop imported "delegations")) →
  ∃ out,
    exportSettings settings = Ok (VObj out)
    ∧ (∀ key p,
         key = "agent_secret" ∨ key = "account_secret" →
         key ∈ Assoc.keys (own_props imported) →
         toPrincipal (get_prop imported key) = Ok (VHost p) →
         ∃ formatted, SigningPrincipal_format (VHost p) = Ok formatted
                      ∧ Assoc.get key out = Some (VStr formatted))
    ∧ ("delegations" ∈ Assoc.keys (own_props imported) →
         ∃ ds,
           Assoc.get "delegations" out = Some (VObj ds)
           ∧ Assoc.keys ds
             = Assoc.keys (own_props (get_prop imported "delegations"))
           ∧ ∀ did del,
               (did, del) ∈ own_props (get_prop imported "delegations") →
               Assoc.get did ds
               = Some (VObj [("ucan", get_prop del "ucan");
                             ("alias", get_prop del "alias")]))
    ∧ (∀ key, Assoc.has key out = true →
         (key = "agent_secret" ∨ key = "account_secret" ∨ key = "delegations")
         ∧ key ∈ Assoc.keys (own_props imported)).
Proof.
  intros Hparse Himport Hsecret Hnodup Hproto.
  destruct (truthy imported) eqn:Ht; cycle 1.
  { rewrite (importSettings_falsy _ _ Hparse Ht) in Himport.
    injection Himport as <-. rewrite (falsy_no_props _ Ht).
    exists []. split; [done|].
    split_and!; try done; intros; by match goal with
                                     | Hin : _ ∈ Assoc.keys [] |- _ =>
                                         apply elem_of_nil in Hin
                                     end. }
  rewrite (importSettings_loop _ _ Hparse Ht) in Himport.
  pose proof (truthy_not_nullish _ Ht) as Hnn.
  destruct (tokens_and_aliases _ Hnodup) as [Hdids Htokens].
  destruct (imported_sibling imported _ settings "agent_secret" Hnn eq_refl Himport)
    as [[Hagent Hno_agent]
       |(pa & pa' & fa & [Hagent Hagent_value]%get_has & Hin_agent & Hpa & Hfa
         & Hagent_back & Hagent_again)];
  destruct (imported_sibling imported _ settings "account_secret" Hnn eq_refl Himport)
    as [[Haccount Hno_account]
       |(pb & pb' & fb & [Haccount Haccount_value]%get_has & Hin_account & Hpb & Hfb
         & Haccount_back & Haccount_again)];
  destruct (imported_delegations imported _ settings Hnn Himport)
    as [[Hdelegations Hno_delegations]
       |(ds & [Hdelegations Hdelegations_value]%get_has & Hin_delegations & Hds)];
  try (apply (delegations_back _ _ Hnodup Hproto) in Hds as [Hobject Hds]);
  unfold exportSettings;
  rewrite Hsecret, Hagent, Haccount, Hdelegations;
  rewrite ?Hagent_value, ?Haccount_value, ?Hdelegations_value;
  unfold_outcome;
  rewrite ?Hagent_back, ?Hagent_again, ?Haccount_back, ?Haccount_again;
  unfold Object_entries;
  rewrite ?Hobject, ?Hds;
  simpl.
  all: eexists; split; [reflexivity|].
  all: split_and!.
  all: lazymatch goal with
       | |- ∀ key p, key = _ ∨ key = _ → _ =>
           intros key p [-> | ->] Hin Hp;
           first
             [ exfalso;
               match goal with
               | Hno : ∀ p, _ → _ → False |- _ => by eapply Hno
               end
             | match goal with
               | Hq : toPrincipal _ = Ok (VHost ?q),
                 Hf : SigningPrincipal_format (VHost ?q) = Ok ?f |- _ =>
                   rewrite Hq in Hp; injection Hp as <-;
                   exists f; split; [exact Hf | reflexivity]
               end ]
       | |- "delegations" ∈ _ → _ =>
           intros Hin;
           first [ done
                 | eexists; split; [reflexivity|]; split;
                   [exact Hdids | exact Htokens] ]
       | |- ∀ key, Assoc.has key _ = true → _ =>
           intros key; unfold Assoc.has; cbn [Assoc.get];
           repeat match goal with
                  | |- context [String.eqb ?k key] =>
                      destruct (String.eqb_spec k key) as [<- | _];
                      [intros _; split; [tauto | assumption]|]
                  end;
           done
       end.
Qed.
End RoundTrip.
End ImportedMap.

(** ** What [exportSettings] builds *)
Section ExportedObject.
Context {host : Type} `{HostObjects host} `{Ucanto host}.
Implicit Types (settings : obj host) (key : string).

(** The four steps of [exportSettings], each on its own. *)
Local Abbreviation secret_part settings :=
  (SigningPrincipal_format (Map_get settings "secret")).
Local Abbreviation sibling_part settings key :=
  (parsed ← SigningPrincipal_parse (Map_get settings key);
   SigningPrincipal_format (VHost parsed)).
Local Abbreviation delegations_part settings :=
  (entries ← Object_entries (Map_get settings "delegations");
   foldM export_delegation (VObj []) entries).

Ltac export_cases settings :=
  unfold exportSettings; unfold_outcome;
  destruct (Assoc.has "secret" settings) eqn:?;
  [destruct (SigningPrincipal_format (Map_get settings "secret")) eqn:?|];
  (destruct (Assoc.has "agent_secret" settings) eqn:?;
   [destruct (SigningPrincipal_parse (Map_get settings "agent_secret"))
      as [p1|] eqn:?;
    [destruct (SigningPrincipal_format (VHost p1)) eqn:?|]|]);
  (destruct (Assoc.has "account_secret" settings) eqn:?;
   [destruct (SigningPrincipal_parse (Map_get settings "account_secret"))
      as [p2|] eqn:?;
    [destruct (SigningPrincipal_format (VHost p2)) eqn:?|]|]);
  (destruct (Assoc.has "delegations" settings) eqn:?;
   [destruct (Object_entries (Map_get settings "delegations"))
      as [entries|] eqn:?;
    [destruct (foldM export_delegation (VObj []) entries) eqn:?|]|]);
  simpl.

Ltac use_steps :=
  repeat match goal with
         | Hstep : ?t = _ |- context [?t] => rewrite Hstep
         end;
  simpl.

Ltac filter_keys :=
  cbn [filter list_filter];
  repeat match goal with
         | Hhas : Assoc.has _ _ = _ |- _ => rewrite Hhas; clear Hhas
         end;
  reflexivity.

(** The exported object has, of ['secret'], ['agent_secret'],
    ['account_secret'] and ['delegations'], exactly the keys the map has, in
    that order, and no other key of the map; each holds what its step
    computed from the value in the map. *)
Theorem exportSettings_emits_known_keys settings out :
  exportSettings settings = Ok out →
  ∃ props,
    out = VObj props
    ∧ Assoc.keys props
      = filter (fun key => Assoc.has key settings)
          ["secret"; "agent_secret"; "account_secret"; "delegations"]
    ∧ (Assoc.has "secret" settings = true →
         ∃ formatted, secret_part settings = Ok formatted
                      ∧ Assoc.get "secret" props = Some (VStr formatted))
    ∧ (∀ key, key = "agent_secret" ∨ key = "account_secret" →
         Assoc.has key settings = true →
         ∃ formatted, sibling_part settings key = Ok formatted
                      ∧ Assoc.get key props = Some (VStr formatted))
    ∧ (Assoc.has "delegations" settings = true →
         ∃ ds, delegations_part settings = Ok ds
               ∧ Assoc.get "delegations" props = Some ds).
Proof.
  export_cases settings; intros [= <-]; eexists; (split; [reflexivity|]);
    (split; [filter_keys|]);
    split_and!; try done; try (intros _; eauto);
    intros key [-> | ->] Hkey; try congruence; use_steps; eauto.
Qed.

(** [exportSettings] skips nothing it cannot convert: it throws exactly
    when the map has one of the four keys and the step for that key
    throws. *)
Theorem exportSettings_throws_iff settings :
  returns (exportSettings settings) = false
  ↔ (Assoc.has "secret" settings = true
     ∧ returns (secret_part settings) = false)
    ∨ (∃ key, (key = "agent_secret" ∨ key = "account_secret")
              ∧ Assoc.has key settings = true
              ∧ returns (sibling_part settings key) = false)
    ∨ (Assoc.has "delegations" settings = true
       ∧ returns (delegations_part settings) = false).
Proof.
  export_cases settings; (split; [intros Hthrow | intros Hparts]);
    try done;
    try solve
      [ by left
      | right; left; exists "agent_secret"; split_and!;
        [by left | done | by use_steps]
      | right; left; exists "account_secret"; split_and!;
        [by right | done | by use_steps]
      | by right; right ];
    destruct Hparts as [Hpart|[Hpart|Hpart]];
    try (destruct Hpart as (key & [-> | ->] & Hkey & Hpart));
    try (destruct Hpart as [Hkey Hpart]);
    try congruence;
    revert Hpart; by use_steps.
Qed.
End ExportedObject.

(** ** The Client: more on uploads and delegations *)
Section ClientMore.
Context {host X : Type} `{HostObjects host} `{Services host X}.
Variable this : Base host.
Implicit Types (w : world host X) (data conf caps item : value host) (l : loc).

(** In either revision, when the invocation configuration is refused, an
    upload returns the refusal and leaves the caller's options object, and
    every other object, as it was: [connection] is written only after the
    configuration was obtained. *)
Theorem refused_upload_leaves_options w data l e x upload_file upload_directory :
  upload_file = ClientA.uploadFile this ∨ upload_file = ClientB.uploadFile this →
  upload_directory = ClientA.uploadDirectory this
  ∨ upload_directory = ClientB.uploadDirectory this →
  Base_invocationConfig ["store/add"; "upload/add"] (ext w) = (Throw e, x) →
  upload_file data (Some l) w
  = (Throw e, World x (heap w)
                (trace w ++ [EvInvocationConfig ["store/add"; "upload/add"]]))
  ∧ upload_directory data (Some l) w
    = (Throw e, World x (heap w)
                  (trace w ++ [EvInvocationConfig ["store/add"; "upload/add"]])).
Proof.
  intros Hfile Hdir Hconf.
  assert (upload_file = ClientA.uploadFile this) as ->
    by (by destruct Hfile as [-> | ->]).
  assert (upload_directory = ClientA.uploadDirectory this) as ->
    by (by destruct Hdir as [-> | ->]).
  rewrite uploadFile_run, uploadDirectory_run.
  change ["store/add"; "upload/add"] with upload_caps in Hconf.
  simpl. by rewrite Hconf.
Qed.

(** In either revision, an upload called without options hands the upload
    client a reference to a new object, one no caller holds, whose only
    field is [connection]; the objects of the callers are as they were. *)
Theorem upload_without_options_allocates w data conf x upload_file upload_directory :
  upload_file = ClientA.uploadFile this ∨ upload_file = ClientB.uploadFile this →
  upload_directory = ClientA.uploadDirectory this
  ∨ upload_directory = ClientB.uploadDirectory this →
  Base_invocationConfig ["store/add"; "upload/add"] (ext w) = (Ok conf, x) →
  ∃ l,
    heap w !! l = None
    ∧ last (trace (upload_file data None w).2)
      = Some (EvUploadFile conf data l
                (<[l := plain [("connection", upload (_serviceConf this))]]>
                   (heap w)))
    ∧ last (trace (upload_directory data None w).2)
      = Some (EvUploadDirectory conf data l
                (<[l := plain [("connection", upload (_serviceConf this))]]>
                   (heap w))).
Proof.
  intros Hfile Hdir Hconf.
  assert (upload_file = ClientA.uploadFile this) as ->
    by (by destruct Hfile as [-> | ->]).
  assert (upload_directory = ClientA.uploadDirectory this) as ->
    by (by destruct Hdir as [-> | ->]).
  rewrite uploadFile_run, uploadDirectory_run.
  change ["store/add"; "upload/add"] with upload_caps in Hconf.
  simpl. rewrite Hconf. unfold write. rewrite lookup_insert_eq. simpl.
  rewrite insert_insert_eq.
  change (store "connection" (upload (_serviceConf this)) (plain []))
    with (plain [("connection", upload (_serviceConf this))]).
  set (l := fresh (dom (heap w))).
  set (h := <[l := plain [("connection", upload (_serviceConf this))]]> (heap w)).
  exists l. split; [apply not_elem_of_dom, is_fresh|].
  destruct (upload_client_uploadFile conf data l h x) as [r1 [h1 x1]].
  destruct (upload_client_uploadDirectory conf data l h x) as [r2 [h2 x2]].
  simpl. by rewrite !(last_app_cons _ [_]).
Qed.

(** A loop that appends one computed value per item. *)
Lemma foldM_appends {A B} (g : B → outcome A) (bs : list B) (ds : list A) :
  Forall2 (fun b d => g b = Ok d) bs ds →
  ∀ acc, foldM (fun acc b => d ← g b; Ok (app acc [d])) acc bs
         = Ok (acc ++ ds)%list.
Proof.
  induction 1 as [|b d bs ds Hd _ IH]; intros acc; simpl.
  - by rewrite app_nil_r.
  - unfold_outcome. rewrite Hd. simpl. rewrite IH. by rewrite <- app_assoc.
Qed.

(** In either revision, [delegations(caps)] asks the agent once and wraps
    what it yields: one [Delegation] per item, in the order yielded, built
    from the item's [delegation.root], [delegation.blocks] and [meta]; no
    item yields an empty list. *)
Theorem delegations_wraps_each_item w caps items x
    (delegations : value host → M host X (value host)) :
  delegations = ClientA.delegations ∨ delegations = ClientB.delegations →
  agent_delegationsWithMeta caps (ext w) = (Ok items, x) →
  (∀ item, item ∈ items →
     nullish item = false ∧ nullish (get_prop item "delegation") = false) →
  delegations caps w
  = (Ok (VArr ((fun item =>
                  VDelegation (get_prop (get_prop item "delegation") "root")
                    (get_prop (get_prop item "delegation") "blocks")
                    (get_prop item "meta")) <$> items)),
     World x (heap w) (trace w ++ [EvAgent "delegationsWithMeta" [caps]])).
Proof.
  intros Hrev Hitems Hwell.
  assert (delegations = ClientA.delegations) as ->
    by (by destruct Hrev as [-> | ->]).
  unfold ClientA.delegations. run. rewrite Hitems. simpl.
  rewrite (foldM_appends wrap_delegation items
             ((fun item =>
                 VDelegation (get_prop (get_prop item "delegation") "root")
                   (get_prop (get_prop item "delegation") "blocks")
                   (get_prop item "meta")) <$> items)); [done|].
  clear Hitems. induction items as [|item items IH]; simpl; constructor.
  - destruct (Hwell item) as [Hitem Hdelegation]; [left|].
    unfold wrap_delegation, member. rewrite Hitem. simpl.
    by rewrite Hdelegation.
  - apply IH. intros item' Hin. apply Hwell. by right.
Qed.

(** In either revision, an item the agent yields that is [null] or
    [undefined], or whose [delegation] is, makes [delegations(caps)] throw a
    [TypeError]: no partial list is returned. *)
Theorem delegations_rejects_malformed_item w caps items x item
    (delegations : value host → M host X (value host)) :
  delegations = ClientA.delegations ∨ delegations = ClientB.delegations →
  agent_delegationsWithMeta caps (ext w) = (Ok items, x) →
  item ∈ items →
  nullish item = true ∨ nullish (get_prop item "delegation") = true →
  ∃ msg, (delegations caps w).1 = Throw (TypeError msg).
Proof.
  intros Hrev Hitems Hin Hbad.
  assert (delegations = ClientA.delegations) as ->
    by (by destruct Hrev as [-> | ->]).
  unfold ClientA.delegations. run. rewrite Hitems. simpl.
  assert (∀ acc, ∃ msg,
             foldM (fun acc item => d ← wrap_delegation item; Ok (app acc [d]))
               acc items = Throw (TypeError msg)) as Hloop.
  { clear Hitems. induction items as [|item' items IH]; intros acc;
      [by apply elem_of_nil in Hin|].
    simpl. unfold_outcome.
    destruct (wrap_delegation item') as [d|e] eqn:Hwrap.
    - apply elem_of_cons in Hin as [-> | Hin]; [|by apply IH].
      exfalso. revert Hwrap. unfold wrap_delegation, member. unfold_outcome.
      destruct Hbad as [-> | Hbad]; [done|].
      destruct (nullish item'); [done|]. simpl. by rewrite Hbad.
    - assert (∃ msg, e = TypeError msg) as [msg ->]; [|by eauto].
      revert Hwrap. unfold wrap_delegation, member. unfold_outcome.
      destruct (nullish item'); [intros [= <-]; by eauto|]. simpl.
      destruct (nullish (get_prop item' "delegation"));
        [intros [= <-]; by eauto | done]. }
  destruct (Hloop []) as [msg Hmsg]. unfold mbind in Hmsg.
  rewrite Hmsg. by exists msg.
Qed.
End ClientMore.

(** ** The Client: defaults of [createDelegation] *)
Section DelegationDefaults.
Context {host X : Type} `{HostObjects host} `{Services host X}.
Implicit Types (w : world host X) (audience abilities options : value host).

(** When [options.audienceMeta] is omitted (or [null]), the metadata passed
    to the agent and recorded in the [Delegation] is
    [{ name: 'agent', type: 'device' }] in the first revision and
    [{ name: '', type: 'device' }] in the second. *)
Theorem createDelegation_default_audience_meta w audience abilities options :
  options ≠ VNull →
  nullish (get_prop (default_object options) "audienceMeta") = true →
  ∃ propsA propsB,
    Assoc.get "audienceMeta" propsA
    = Some (VObj [("name", VStr "agent"); ("type", VStr "device")])
    ∧ Assoc.get "audienceMeta" propsB
      = Some (VObj [("name", VStr ""); ("type", VStr "device")])
    ∧ trace (ClientA.createDelegation audience abilities options w).2
      = (trace w ++ [EvAgent "delegate" [VObj propsA]])%list
    ∧ trace (ClientB.createDelegation audience abilities options w).2
      = (trace w ++ [EvAgent "delegate" [VObj propsB]])%list
    ∧ (∀ d x, agent_delegate (VObj propsA) (ext w) = (Ok d, x) →
              nullish d = false →
              (ClientA.createDelegation audience abilities options w).1
              = Ok (VDelegation (get_prop d "root") (get_prop d "blocks")
                      (VObj [("audience",
                              VObj [("name", VStr "agent");
                                    ("type", VStr "device")])])))
    ∧ (∀ d x, agent_delegate (VObj propsB) (ext w) = (Ok d, x) →
              nullish d = false →
              (ClientB.createDelegation audience abilities options w).1
              = Ok (VDelegation (get_prop d "root") (get_prop d "blocks")
                      (VObj [("audience",
                              VObj [("name", VStr "");
                                    ("type", VStr "device")])]))).
Proof.
  intros Hnn Hgiven.
  rewrite createDelegationA_run, createDelegationB_run by done.
  unfold coalesce. rewrite Hgiven. cbv zeta.
  destruct (delegate_options_fields (default_object options) abilities audience
              (VObj [("name", VStr "agent"); ("type", VStr "device")]))
    as (propsA & -> & _ & _ & HmetaA & _).
  destruct (delegate_options_fields (default_object options) abilities audience
              (VObj [("name", VStr ""); ("type", VStr "device")]))
    as (propsB & -> & _ & _ & HmetaB & _).
  exists propsA, propsB. split_and!; try done.
  - by destruct (agent_delegate (VObj propsA) (ext w)) as [[d|e] x].
  - by destruct (agent_delegate (VObj propsB) (ext w)) as [[d|e] x].
  - intros d x -> Hd. simpl. unfold member. by rewrite Hd.
  - intros d x -> Hd. simpl. unfold member. by rewrite Hd.
Qed.

End DelegationDefaults.

(** ** [Client.create] *)
Section Create.
Context {host S : Type} `{HostObjects host} `{Bootstrap host S}.
Implicit Types (options store raw : value host) (s : S)
  (tr : list (boot_event host)).

Ltac boot_run :=
  unfold ClientB.create, mbind, mret, Boot_bind, Boot_ret, boot_pure, boot_call,
    member;
  simpl.

Ltac boot_step :=
  match goal with
  | |- context [if nullish ?v then _ else _] => destruct (nullish v) eqn:?
  | |- context [if truthy ?v then _ else _] => destruct (truthy v) eqn:?
  | |- context [Store_new ?s] => destruct (Store_new s) as [[?|?] ?] eqn:?
  | |- context [Store_load ?v ?s] => destruct (Store_load v s) as [[?|?] ?] eqn:?
  | |- context [AgentData_fromExport ?v ?o ?s] =>
      destruct (AgentData_fromExport v o s) as [[?|?] ?] eqn:?
  | |- context [Signer_generate ?s] =>
      destruct (Signer_generate s) as [[?|?] ?] eqn:?
  | |- context [AgentData_create ?v ?o ?s] =>
      destruct (AgentData_create v o s) as [[?|?] ?] eqn:?
  end;
  simpl.

Ltac boot_cases := boot_run; repeat boot_step.

Ltac in_trace :=
  repeat match goal with
         | Hin : _ ∈ _ :: _ |- _ => apply elem_of_cons in Hin as [Hin | Hin]
         | Hin : _ ∈ [] |- _ => by apply elem_of_nil in Hin
         | Hex : ∃ _, _ |- _ => destruct Hex
         | Heq : _ = _ |- _ => by discriminate Heq
         | Heq : _ = _ |- _ => injection Heq as ? ?; subst
         | Heq : _ = _ |- _ => injection Heq as ?; subst
         | |- _ ∧ _ => split
         | |- _ ∉ _ => intros ?
         | |- ∀ _, _ => intros ?
         end.

(** Whatever the libraries do, a run of [create] keeps to this: data is
    loaded from the store or a key is generated, never both; data is only
    loaded when the store gave some; agent data is only created after a key
    was generated, for that key; the store handed to [AgentData] is the one
    that was loaded; a store the caller passes is that store, and no other
    is constructed; and the client returned carries the caller's options. *)
Theorem create_loads_or_generates options s r s' tr :
  ClientB.create options (s, []) = (r, (s', tr)) →
  (∀ raw o, EvFromExport raw o ∈ tr →
     truthy raw = true
     ∧ (EvSignerGenerate ∉ tr)
     ∧ (∀ init o', EvAgentDataCreate init o' ∉ tr)
     ∧ ∃ store, o = VObj [("store", store)] ∧ EvStoreLoad store ∈ tr)
  ∧ (∀ init o, EvAgentDataCreate init o ∈ tr →
       EvSignerGenerate ∈ tr
       ∧ ∃ principal store,
           init = VObj [("principal", principal)]
           ∧ o = VObj [("store", store)]
           ∧ EvStoreLoad store ∈ tr)
  ∧ (nullish (get_prop (default_object options) "store") = false →
       (EvStoreNew ∉ tr)
       ∧ ∀ store, EvStoreLoad store ∈ tr →
                  store = get_prop (default_object options) "store")
  ∧ (∀ client, r = Ok client →
       client_options client = default_object options
       ∧ ((∃ raw o, EvFromExport raw o ∈ tr)
          ∨ (∃ init o, EvAgentDataCreate init o ∈ tr))).
Proof.
  boot_cases; intros [= <- <- <-]; split_and!;
    intros; in_trace; try congruence; try done;
    try (eexists; split; [reflexivity|]; set_solver);
    try (eexists _, _; split_and!; [reflexivity..|]; set_solver);
    try set_solver;
    try (left; eexists _, _; set_solver);
    try (right; eexists _, _; set_solver).
Qed.
(** With the store in hand (the caller's, or the new one when the caller
    passes none) and what it loads: when the store gives data, [create]
    hands that data and that store to [AgentData.fromExport] and generates
    no key; when it gives none, [create] generates a key and loads no
    data. *)
Theorem create_generates_only_for_empty_store options s store s0 raw s1 :
  options ≠ VNull →
  (nullish (get_prop (default_object options) "store") = false
   ∧ store = get_prop (default_object options) "store" ∧ s0 = s)
  ∨ (nullish (get_prop (default_object options) "store") = true
     ∧ Store_new s = (Ok store, s0)) →
  Store_load store s0 = (Ok raw, s1) →
  (truthy raw = true →
     EvFromExport raw (VObj [("store", store)])
       ∈ (ClientB.create options (s, [])).2.2
     ∧ (EvSignerGenerate ∉ (ClientB.create options (s, [])).2.2))
  ∧ (truthy raw = false →
       EvSignerGenerate ∈ (ClientB.create options (s, [])).2.2
       ∧ (∀ raw' o, EvFromExport raw' o ∉ (ClientB.create options (s, [])).2.2)).
Proof.
  intros Hnn%default_object_not_nullish Hstore Hload.
  boot_run. rewrite Hnn. simpl.
  destruct Hstore as [(Hgiven & -> & ->) | (Hgiven & Hnew)]; rewrite Hgiven;
    simpl; rewrite ?Hnew; simpl; rewrite Hload; simpl;
    (split; intros ->; simpl; repeat boot_step; split; set_solver).
Qed.
End Create.

(** * The properties on the reference implementations

    Each statement below runs the code on a concrete input, with the
    reference libraries, and meets the assumptions of the theorem it
    applies. *)
Module ReferenceRuns.
Import Reference.

(** C1: the document [{"secret":"Mk1"}] is imported, and its export throws. *)
Lemma export_after_import_rejects_secret_run :
  JSON_parse (stringify only_secret) = Ok (VObj [("secret", VStr "Mk1")])
  ∧ toPrincipal (VStr "Mk1") = Ok (VHost (RKey "k1"))
  ∧ SigningPrincipal_format (VHost (RKey "k1")) = Ok "Mk1"
  ∧ SigningPrincipal_format (VStr "Mk1")
    = Throw (TypeError "Unknown type, must be binary type")
  ∧ importSettings (stringify only_secret) = Ok [("secret", VStr "Mk1")]
  ∧ (settings ← importSettings (stringify only_secret); exportSettings settings)
    = Throw (TypeError "Unknown type, must be binary type").
Proof.
  refine (conj eq_refl (conj eq_refl (conj eq_refl (conj eq_refl _)))).
  exact (export_after_import_rejects_secret
           (stringify only_secret) (VStr "Mk1") (RKey "k1") "Mk1" _
           eq_refl eq_refl eq_refl eq_refl).
Defined.

(** C2: on the same agent the first revision's [createSpace] returns the
    space and the second's returns [undefined]; with no [audienceMeta] the
    first revision names the audience ['agent'] and the second ['']. *)
Lemma revisions_differ :
  (ClientA.createSpace (VStr "docs") at_home).1
  = Ok (VSpace (VStr "did:key:zNew") (VObj [("isRegistered", VBool false)]))
  ∧ (ClientB.createSpace (VStr "docs") at_home).1 = Ok VUndefined
  ∧ (ClientA.createDelegation (VStr "did:key:zBob") (VArr [VStr "store/add"])
       VUndefined at_home).1
    = Ok (VDelegation (VStr "bafyroot") (VArr [])
            (VObj [("audience",
                    VObj [("name", VStr "agent"); ("type", VStr "device")])]))
  ∧ (ClientB.createDelegation (VStr "did:key:zBob") (VArr [VStr "store/add"])
       VUndefined at_home).1
    = Ok (VDelegation (VStr "bafyroot") (VArr [])
            (VObj [("audience",
                    VObj [("name", VStr ""); ("type", VStr "device")])])).
Proof. repeat split. Qed.

(** C3: a delegation to Bob with his metadata supplied. *)
Lemma createDelegation_wraps_delegate_run :
  ∃ props,
    Assoc.get "audience" props = Some (VStr "did:key:zBob")
    ∧ Assoc.get "expiration" props = Some (VNum 5)
    ∧ trace (ClientB.createDelegation (VStr "did:key:zBob") (VArr [VStr "store/add"])
               (VObj [("audienceMeta", VObj [("name", VStr "bob")]);
                      ("expiration", VNum 5)]) at_home).2
      = [EvAgent "delegate" [VObj props]]
    ∧ (ClientB.createDelegation (VStr "did:key:zBob") (VArr [VStr "store/add"])
         (VObj [("audienceMeta", VObj [("name", VStr "bob")]);
                ("expiration", VNum 5)]) at_home).1
      = Ok (VDelegation (VStr "bafyroot") (VArr [])
              (VObj [("audience", VObj [("name", VStr "bob")])])).
Proof.
  destruct (createDelegation_wraps_delegate at_home
              (VStr "did:key:zBob") (VArr [VStr "store/add"])
              (VObj [("audienceMeta", VObj [("name", VStr "bob")]);
                     ("expiration", VNum 5)])
              ClientB.createDelegation (or_intror eq_refl))
    as (meta & props & Hmeta & Haudience & _ & _ & Hrest & Htrace & Hresult);
    [done|].
  exists props. rewrite (Hmeta eq_refl) in Hresult.
  split; [exact Haudience|]. split; [by rewrite Hrest|].
  split; [exact Htrace|]. exact (Hresult eq_refl).
Defined.

(** C5, as first stated, fails: the secret does not convert and
    [importSettings] throws all the same, on the [null] delegations. *)
Lemma importSettings_unconvertible_secret_still_throws :
  JSON_parse (stringify bad_secret_null_delegations)
  = Ok (VObj [("secret", VStr "oops"); ("delegations", VNull)])
  ∧ toPrincipal (VStr "oops" : value host) = Ok VNull
  ∧ importSettings (stringify bad_secret_null_delegations)
    = Throw (TypeError "Cannot convert undefined or null to object").
Proof. repeat split. Qed.

(** C5: the secret does not convert, the e-mail address and the agent
    secret are imported. *)
Lemma importSettings_omits_unconvertible_secret_run :
  JSON_parse (stringify bad_secret) = Ok bad_secret
  ∧ is_secret_key "secret" = true
  ∧ toPrincipal (get_prop bad_secret "secret") = Ok VNull
  ∧ ∃ settings,
      importSettings (stringify bad_secret) = Ok settings
      ∧ Assoc.has "secret" settings = false
      ∧ Assoc.get "email" settings = Some (VStr "a@b.c")
      ∧ Assoc.get "agent_secret" settings = Some (VStr "Mk2").
Proof.
  assert (JSON_parse (stringify bad_secret) = Ok bad_secret) as Hparse
    by reflexivity.
  assert (toPrincipal (get_prop bad_secret "secret") = Ok VNull) as Hnull
    by reflexivity.
  split; [exact Hparse|]. split; [reflexivity|]. split; [exact Hnull|].
  eexists. split; [reflexivity|].
  destruct (importSettings_omits_unconvertible_secret
              (stringify bad_secret) bad_secret "secret" Hparse eq_refl Hnull)
    as [_ Hok].
  destruct (Hok _ eq_refl) as (Homit & Hsecrets & _ & Hplain).
  split; [exact Homit|]. split.
  - apply Hplain; [|done..]. by apply AssocFacts.has_keys.
  - destruct (Hsecrets "agent_secret" (RKey "k2")) as (formatted & Hf & ->);
      [by apply AssocFacts.has_keys|done..|].
    by injection Hf as <-.
Defined.
(** C6, as first stated, fails: with options that were frozen, the
    configuration is obtained and nothing is delegated to the upload
    client; and nothing is delegated either when the configuration is
    refused. *)
Lemma uploads_not_always_delegated :
  Base_invocationConfig ["store/add"; "upload/add"] (ext icy)
  = (Ok (VObj [("with", VStr "did:key:zHome");
               ("can", VArr [VStr "store/add"; VStr "upload/add"])]), home)
  ∧ heap icy !! 0 = Some (frozen [("retries", VNum 3)])
  ∧ ClientA.uploadFile me (VStr "hello") (Some 0) icy
    = (Throw not_writable,
       World home (heap icy) [EvInvocationConfig ["store/add"; "upload/add"]])
  ∧ ClientB.uploadDirectory me (VStr "hello") (Some 0) icy
    = (Throw not_writable,
       World home (heap icy) [EvInvocationConfig ["store/add"; "upload/add"]])
  ∧ ClientB.uploadFile me (VStr "hello") (Some 0) stranded
    = (Throw (LibraryError "missing current space"),
       World nowhere (heap stranded)
         [EvInvocationConfig ["store/add"; "upload/add"]]).
Proof. repeat split. Qed.

(** C6: an upload of a file and of a directory from home. *)
Lemma uploads_delegate_with_config_run :
  ∃ h,
    (ClientB.uploadFile me (VStr "hello") (Some 0) at_home).1 = Ok (VStr "bafyfile")
    ∧ trace (ClientB.uploadFile me (VStr "hello") (Some 0) at_home).2
      = [EvInvocationConfig ["store/add"; "upload/add"];
         EvUploadFile
           (VObj [("with", VStr "did:key:zHome");
                  ("can", VArr [VStr "store/add"; VStr "upload/add"])])
           (VStr "hello") 0 h]
    ∧ (ClientA.uploadDirectory me (VStr "hello") (Some 0) at_home).1
      = Ok (VStr "bafydir")
    ∧ trace (ClientA.uploadDirectory me (VStr "hello") (Some 0) at_home).2
      = [EvInvocationConfig ["store/add"; "upload/add"];
         EvUploadDirectory
           (VObj [("with", VStr "did:key:zHome");
                  ("can", VArr [VStr "store/add"; VStr "upload/add"])])
           (VStr "hello") 0 h].
Proof.
  destruct (uploads_delegate_with_config me at_home (VStr "hello") (Some 0)
              (ClientB.uploadFile me) (ClientA.uploadDirectory me)
              (or_intror eq_refl) (or_introl eq_refl))
    as (l & h0 & Hl & _ & Hrun).
  destruct (Hl 0 eq_refl) as [-> ->].
  change (Base_invocationConfig ["store/add"; "upload/add"] (ext at_home))
    with (Ok (VObj [("with", VStr "did:key:zHome");
                    ("can", VArr [VStr "store/add"; VStr "upload/add"])])
            : outcome (value host), home) in Hrun.
  assert (write (heap at_home) 0 "connection" (upload (_serviceConf me))
          = Some (<[0 := plain [("retries", VNum 3);
                                ("connection", VHost (RConnection "https://upload"))]]>
                    (heap at_home))) as Hwrite
    by reflexivity.
  cbv beta iota in Hrun. rewrite Hwrite in Hrun.
  destruct Hrun as [Hfile Hdir]. simpl in Hfile, Hdir.
  eexists. by rewrite Hfile, Hdir.
Defined.

(** C7: the two spaces known at home. *)
Lemma spaces_one_per_entry_run :
  length (ClientB.spaces at_home) = 2
  ∧ ClientB.spaces at_home !! 1
    = Some (VSpace (VStr "did:key:zWork") (VObj [("name", VStr "work")])).
Proof.
  destruct (spaces_one_per_entry at_home ClientB.spaces (or_intror eq_refl))
    as (Hlength & Hnth & _).
  split; [exact Hlength | exact (Hnth 1 _ _ eq_refl)].
Defined.

(** C8, as first stated, fails: options that were frozen are left as they
    were, without [connection], and so are options passed when the
    configuration is refused. *)
Lemma uploads_leave_options_unwritten :
  heap icy !! 0 = Some (frozen [("retries", VNum 3)])
  ∧ (ClientA.uploadFile me (VStr "hello") (Some 0) icy).1 = Throw not_writable
  ∧ heap (ClientA.uploadFile me (VStr "hello") (Some 0) icy).2 !! 0
    = Some (frozen [("retries", VNum 3)])
  ∧ trace (ClientA.uploadFile me (VStr "hello") (Some 0) icy).2
    = [EvInvocationConfig ["store/add"; "upload/add"]]
  ∧ heap stranded !! 0 = Some (plain [("retries", VNum 3)])
  ∧ (ClientB.uploadDirectory me (VStr "hello") (Some 0) stranded).1
    = Throw (LibraryError "missing current space")
  ∧ heap (ClientB.uploadDirectory me (VStr "hello") (Some 0) stranded).2 !! 0
    = Some (plain [("retries", VNum 3)]).
Proof. repeat split. Qed.

(** C8: the caller's options object, sealed with a [connection] of its
    own, as the upload client sees it. *)
Lemma uploads_overwrite_connection_run :
  heap sealed !! 0
  = Some (HeapObject [("connection", VNull); ("retries", VNum 3)] false [])
  ∧ ∃ h o',
      last (trace (ClientA.uploadFile me (VStr "hello") (Some 0) sealed).2)
      = Some (EvUploadFile
                (VObj [("with", VStr "did:key:zHome");
                       ("can", VArr [VStr "store/add"; VStr "upload/add"])])
                (VStr "hello") 0 h)
      ∧ h !! 0 = Some o'
      ∧ Assoc.get "connection" (fields o')
        = Some (VHost (RConnection "https://upload"))
      ∧ Assoc.get "retries" (fields o') = Some (VNum 3)
      ∧ extensible o' = false.
Proof.
  assert (heap sealed !! 0
          = Some (HeapObject [("connection", VNull); ("retries", VNum 3)] false []))
    as Hoptions
    by reflexivity.
  split; [exact Hoptions|].
  pose proof (uploads_overwrite_connection me sealed (VStr "hello") 0 _
                (ClientA.uploadFile me) (ClientB.uploadDirectory me)
                (or_introl eq_refl) (or_intror eq_refl) Hoptions) as Hrun.
  change (Base_invocationConfig ["store/add"; "upload/add"] (ext sealed))
    with (Ok (VObj [("with", VStr "did:key:zHome");
                    ("can", VArr [VStr "store/add"; VStr "upload/add"])])
            : outcome (value host), home) in Hrun.
  cbv beta iota in Hrun.
  change (accepts _ "connection") with true in Hrun. cbv iota in Hrun.
  destruct Hrun
    as (h & o' & Hfile & _ & Hh & Hconnection & Hothers & Hextensible & _).
  exists h, o'. split; [exact Hfile|]. split; [exact Hh|].
  split; [exact Hconnection|]. split; [by rewrite Hothers | exact Hextensible].
Defined.

(** C10: at home the current space is the home space; an agent with no
    current space has none. *)
Lemma currentSpace_undefined_iff_unset_run :
  ClientA.currentSpace at_home
  = VSpace (VStr "did:key:zHome") (VObj [("name", VStr "home")])
  ∧ ClientB.currentSpace lost = VUndefined.
Proof.
  split.
  - destruct (currentSpace_undefined_iff_unset at_home ClientA.currentSpace
                (or_introl eq_refl)) as [_ Hset].
    + by intros did [= <-].
    + exact (Hset "did:key:zHome" eq_refl).
  - destruct (currentSpace_undefined_iff_unset lost ClientB.currentSpace
                (or_intror eq_refl)) as [[_ Hunset] _]; [done|].
    exact (Hunset eq_refl).
Defined.
(** A legacy agent secret (plain base64) comes back in its formatted form. *)
Lemma sibling_secret_round_trip_run :
  JSON_parse (stringify only_agent_secret) = Ok (VObj [("agent_secret", VStr "k2")])
  ∧ toPrincipal (VStr "k2") = Ok (VHost (RKey "k2"))
  ∧ SigningPrincipal_format (VHost (RKey "k2")) = Ok "Mk2"
  ∧ SigningPrincipal_parse (VStr "Mk2") = Ok (RKey "k2")
  ∧ (settings ← importSettings (stringify only_agent_secret);
     exportSettings settings)
    = Ok (VObj [("agent_secret", VStr "Mk2")]).
Proof.
  refine (conj eq_refl (conj eq_refl (conj eq_refl (conj eq_refl _)))).
  exact (sibling_secret_round_trip (stringify only_agent_secret) "agent_secret"
           (VStr "k2") (RKey "k2") "Mk2" (or_introl eq_refl)
           eq_refl eq_refl eq_refl eq_refl).
Defined.

(** [null] delegations beside a secret: the import throws. *)
Lemma importSettings_null_delegations_run :
  JSON_parse (stringify bad_secret_null_delegations)
  = Ok (VObj [("secret", VStr "oops"); ("delegations", VNull)])
  ∧ ∃ e, importSettings (stringify bad_secret_null_delegations) = Throw e.
Proof.
  split; [reflexivity|].
  exact (importSettings_null_delegations
           (stringify bad_secret_null_delegations) (VStr "oops") eq_refl).
Defined.
(** The reference libraries read back what they write. *)
Lemma reference_decode_key (v : value host) (p : host) :
  decode v = Ok p → ∃ k, p = RKey k ∧ is_key k = true.
Proof.
  destruct v as [| | | | | | | |h| |]; try done.
  destruct h as [|data| | | |]; try done.
  simpl. destruct (is_key data) eqn:Hkey; [|done]. intros [= <-]. eauto.
Qed.

Lemma reference_parse_key (v : value host) (p : host) :
  parse v = Ok p → ∃ k, p = RKey k ∧ is_key k = true.
Proof.
  destruct v as [| | | |text| | | | | |]; try done.
  destruct text as [|c text]; [done|].
  destruct c as [[] [] [] [] [] [] [] []]; try done.
  apply reference_decode_key.
Qed.

Lemma reference_principal_key (secret : value host) (p : host) :
  toPrincipal secret = Ok (VHost p) → ∃ k, p = RKey k ∧ is_key k = true.
Proof.
  unfold toPrincipal. unfold_outcome. simpl.
  destruct (decode secret) as [p1|] eqn:Hdecode; simpl.
  { intros [= <-]. by eapply reference_decode_key. }
  destruct (parse secret) as [p2|] eqn:Hparse; simpl.
  { intros [= <-]. by eapply reference_parse_key. }
  destruct secret as [| | | |text| | | | | |]; try done. simpl.
  destruct (is_key text) eqn:Hkey; [|done]. intros [= <-]. eauto.
Qed.

Lemma reference_principal_law (secret : value host) (p : host) (formatted : string) :
  toPrincipal secret = Ok (VHost p) →
  SigningPrincipal_format (VHost p) = Ok formatted →
  ∃ p', SigningPrincipal_parse (VStr formatted) = Ok p'
        ∧ SigningPrincipal_format (VHost p') = Ok formatted.
Proof.
  intros (k & -> & Hkey)%reference_principal_key [= <-].
  exists (RKey k). simpl. by rewrite Hkey.
Qed.

Lemma reference_token_law (token : value host) (ucan root created : host) :
  UCAN_parse token = Ok ucan →
  UCAN_write (VHost ucan) = Ok root →
  Delegation_create (VObj [("root", VHost root)]) = Ok created →
  ∃ jwt rebuilt,
    token = VStr jwt
    ∧ get_prop (VHost created) "root" = VHost root
    ∧ Delegation_import (VArr [VHost root]) = Ok rebuilt
    ∧ UCAN_format (VHost rebuilt) = Ok jwt.
Proof.
  destruct token as [| | | |jwt| | | | | |]; try done.
  intros [= <-] [= <-] [= <-]. by exists jwt, (RDelegation jwt).
Qed.

(** The full document: its keys, in order. *)
Lemma importSettings_keys_in_document_order_run :
  ∃ settings,
    importSettings (stringify full) = Ok settings
    ∧ Assoc.keys settings
      = ["agent_secret"; "account_secret"; "email"; "delegations"]
    ∧ NoDup (Assoc.keys settings).
Proof.
  assert (JSON_parse (stringify full) = Ok full) as Hparse by reflexivity.
  assert (NoDup (Assoc.keys (own_props full))) as Hnodup
    by (refine (bool_decide_unpack (NoDup (Assoc.keys (own_props full))) _);
        vm_compute; exact I).
  eexists. split; [reflexivity|].
  exact (importSettings_keys_in_document_order (stringify full) full _
           Hparse Hnodup eq_refl).
Defined.

(** The full document: what the map holds under ['agent_secret']. *)
Lemma importSettings_holds_only_imported_run :
  ∃ settings,
    importSettings (stringify full) = Ok settings
    ∧ Assoc.get "agent_secret" settings = Some (VStr "Mk2")
    ∧ "agent_secret" ∈ Assoc.keys (own_props full)
    ∧ ∃ p formatted,
        toPrincipal (get_prop full "agent_secret") = Ok (VHost p)
        ∧ SigningPrincipal_format (VHost p) = Ok formatted
        ∧ VStr "Mk2" = (VStr formatted : value host).
Proof.
  assert (JSON_parse (stringify full) = Ok full) as Hparse by reflexivity.
  eexists. split; [reflexivity|]. split; [reflexivity|].
  destruct (importSettings_holds_only_imported (stringify full) full _
              "agent_secret" (VStr "Mk2") Hparse eq_refl eq_refl)
    as (Hin & Hsecret & _).
  split; [exact Hin | exact (Hsecret eq_refl)].
Defined.

(** Delegations under Alice's DID and under [__proto__]: Alice's is an
    entry, the other is the prototype. *)
Lemma import_delegations_one_per_did_run :
  ∃ ds,
    import_delegations (VObj [("did:key:zAlice", alice); ("__proto__", alice)])
    = Ok ds
    ∧ Assoc.keys (own_props ds) = ["did:key:zAlice"]
    ∧ Assoc.get "did:key:zAlice" (own_props ds)
      = Some (VObj [("ucan", VHost (RDelegation "eyJ.alice"));
                    ("alias", VStr "alice")])
    ∧ ds = VObjProto (VObj [("ucan", VHost (RDelegation "eyJ.alice"));
                            ("alias", VStr "alice")])
             (own_props ds).
Proof.
  assert (NoDup (Assoc.keys (own_props
                   (VObj [("did:key:zAlice", alice); ("__proto__", alice)]
                    : value host)))) as Hnodup
    by (refine (bool_decide_unpack _ _); vm_compute; exact I).
  assert (import_delegations
            (VObj [("did:key:zAlice", alice); ("__proto__", alice)])
          = Ok (VObjProto
                  (VObj [("ucan", VHost (RDelegation "eyJ.alice"));
                         ("alias", VStr "alice")])
                  [("did:key:zAlice",
                    VObj [("ucan", VHost (RDelegation "eyJ.alice"));
                          ("alias", VStr "alice")])])) as Himport
    by reflexivity.
  eexists.
  destruct (import_delegations_one_per_did _ _ Hnodup Himport)
    as (Hkeys & _ & Hentries).
  split; [exact Himport|]. split; [exact Hkeys|].
  destruct (Hentries "did:key:zAlice" alice)
    as (_ & ucan & root & created & Hucan & Hroot & Hcreated & Hentry);
    [by left|].
  destruct (Hentries "__proto__" alice)
    as (_ & ucan' & root' & created' & Hucan' & Hroot' & Hcreated' & Hproto);
    [right; by left|].
  simpl in Hucan, Hucan'. injection Hucan as <-. injection Hucan' as <-.
  simpl in Hroot, Hroot'. injection Hroot as <-. injection Hroot' as <-.
  simpl in Hcreated, Hcreated'. injection Hcreated as <-. injection Hcreated' as <-.
  split; [exact Hentry | exact Hproto].
Defined.

(** A map with an agent secret and an e-mail address: only the secret is
    exported. *)
Lemma exportSettings_emits_known_keys_run :
  exportSettings [("email", VStr "a@b.c"); ("agent_secret", VStr "Mk2")]
  = Ok (VObj [("agent_secret", VStr "Mk2")])
  ∧ ∃ props,
      VObj [("agent_secret", VStr "Mk2")] = (VObj props : value host)
      ∧ Assoc.keys props = ["agent_secret"].
Proof.
  assert (exportSettings [("email", VStr "a@b.c"); ("agent_secret", VStr "Mk2")]
          = Ok (VObj [("agent_secret", VStr "Mk2")])) as Hexport
    by reflexivity.
  split; [exact Hexport|].
  destruct (exportSettings_emits_known_keys _ _ Hexport)
    as (props & Hout & Hkeys & _).
  exists props. split; [exact Hout | exact Hkeys].
Defined.

(** The full document, imported and exported. *)
Lemma export_inverts_import_but_for_secret_run :
  ∃ settings out,
    importSettings (stringify full) = Ok settings
    ∧ Assoc.has "secret" settings = false
    ∧ exportSettings settings = Ok (VObj out)
    ∧ (∃ formatted,
         SigningPrincipal_format (VHost (RKey "k2")) = Ok formatted
         ∧ Assoc.get "agent_secret" out = Some (VStr formatted))
    ∧ ∃ ds,
        Assoc.get "delegations" out = Some (VObj ds)
        ∧ Assoc.get "did:key:zAlice" ds
          = Some (VObj [("ucan", VStr "eyJ.alice"); ("alias", VStr "alice")]).
Proof.
  assert (JSON_parse (stringify full) = Ok full) as Hparse by reflexivity.
  assert (NoDup (Assoc.keys (own_props (get_prop full "delegations"))))
    as Hnodup by apply NoDup_singleton.
  assert ("__proto__" ∉ Assoc.keys (own_props (get_prop full "delegations")))
    as Hproto by (by intros [=]%list_elem_of_singleton).
  eexists.
  destruct (export_inverts_import_but_for_secret
              reference_principal_law reference_token_law
              (stringify full) full _ Hparse eq_refl eq_refl Hnodup Hproto)
    as (out & Hexport & Hsiblings & Hdelegations & _).
  exists out. split; [reflexivity|]. split; [reflexivity|].
  split; [exact Hexport|]. split.
  - apply (Hsiblings "agent_secret" (RKey "k2")); [by left| |reflexivity].
    by apply AssocFacts.has_keys.
  - destruct Hdelegations as (ds & Hds & _ & Htokens);
      [by apply AssocFacts.has_keys|].
    exists ds. split; [exact Hds|].
    apply (Htokens "did:key:zAlice" alice). left.
Defined.

(** Nowhere to upload to: the options object stays as it was. *)
Lemma refused_upload_leaves_options_run :
  ClientB.uploadFile me (VStr "hello") (Some 0) stranded
  = (Throw (LibraryError "missing current space"),
     World nowhere (heap stranded)
       [EvInvocationConfig ["store/add"; "upload/add"]])
  ∧ (ClientA.uploadDirectory me (VStr "hello") (Some 0) stranded).1
    = Throw (LibraryError "missing current space").
Proof.
  assert (Base_invocationConfig ["store/add"; "upload/add"] (ext stranded)
          = (Throw (LibraryError "missing current space"), nowhere)) as Hconf
    by reflexivity.
  destruct (refused_upload_leaves_options me stranded (VStr "hello") 0 _ _
              (ClientB.uploadFile me) (ClientA.uploadDirectory me)
              (or_intror eq_refl) (or_introl eq_refl) Hconf) as [Hfile Hdir].
  split; [exact Hfile | by rewrite Hdir].
Defined.

(** An upload from home without options. *)
Lemma upload_without_options_allocates_run :
  ∃ l,
    heap at_home !! l = None
    ∧ last (trace (ClientA.uploadFile me (VStr "hello") None at_home).2)
      = Some (EvUploadFile
                (VObj [("with", VStr "did:key:zHome");
                       ("can", VArr [VStr "store/add"; VStr "upload/add"])])
                (VStr "hello") l
                (<[l := plain [("connection",
                                VHost (RConnection "https://upload"))]]>
                   (heap at_home))).
Proof.
  assert (Base_invocationConfig ["store/add"; "upload/add"] (ext at_home)
          = (Ok (VObj [("with", VStr "did:key:zHome");
                       ("can", VArr [VStr "store/add"; VStr "upload/add"])]),
             home)) as Hconf
    by reflexivity.
  destruct (upload_without_options_allocates me at_home (VStr "hello") _ _
              (ClientA.uploadFile me) (ClientB.uploadDirectory me)
              (or_introl eq_refl) (or_intror eq_refl) Hconf)
    as (l & Hfresh & Hfile & _).
  exists l. split; [exact Hfresh | exact Hfile].
Defined.

(** The delegations of an agent that has delegated twice. *)
Lemma delegations_wraps_each_item_run :
  (@ClientB.delegations _ _ _ delegating VUndefined at_home).1
  = Ok (VArr [VDelegation (VStr "bafyalice") (VArr [])
                (VObj [("audience", VObj [("name", VStr "alice")])]);
              VDelegation (VStr "bafycarol") (VArr [])
                (VObj [("audience", VObj [("name", VStr "carol")])])]).
Proof.
  assert (@agent_delegationsWithMeta _ _ delegating VUndefined (ext at_home)
          = (Ok [to_alice; to_carol], home)) as Hitems
    by reflexivity.
  rewrite (@delegations_wraps_each_item _ _ _ delegating at_home VUndefined
             [to_alice; to_carol] home (@ClientB.delegations _ _ _ delegating)
             (or_intror eq_refl) Hitems); [reflexivity|].
  intros item [-> | [-> | []%elem_of_nil]%elem_of_cons]%elem_of_cons; by split.
Defined.

(** Asked with a filter, the same agent yields a [null]: nothing is
    returned. *)
Lemma delegations_rejects_malformed_item_run :
  ∃ msg,
    (@ClientA.delegations _ _ _ delegating (VArr [VStr "store/add"]) at_home).1
    = Throw (TypeError msg).
Proof.
  assert (@agent_delegationsWithMeta _ _ delegating (VArr [VStr "store/add"])
            (ext at_home)
          = (Ok [to_alice; VNull], home)) as Hitems
    by reflexivity.
  apply (@delegations_rejects_malformed_item _ _ _ delegating at_home
           (VArr [VStr "store/add"]) [to_alice; VNull] home VNull
           (@ClientA.delegations _ _ _ delegating) (or_introl eq_refl) Hitems).
  - right. left.
  - by left.
Defined.

(** A delegation to Bob with no metadata given. *)
Lemma createDelegation_default_audience_meta_run :
  (ClientA.createDelegation (VStr "did:key:zBob") (VArr [VStr "store/add"])
     (VObj [("expiration", VNum 5)]) at_home).1
  = Ok (VDelegation (VStr "bafyroot") (VArr [])
          (VObj [("audience",
                  VObj [("name", VStr "agent"); ("type", VStr "device")])]))
  ∧ (ClientB.createDelegation (VStr "did:key:zBob") (VArr [VStr "store/add"])
       (VObj [("expiration", VNum 5)]) at_home).1
    = Ok (VDelegation (VStr "bafyroot") (VArr [])
            (VObj [("audience",
                    VObj [("name", VStr ""); ("type", VStr "device")])])).
Proof.
  destruct (createDelegation_default_audience_meta at_home
              (VStr "did:key:zBob") (VArr [VStr "store/add"])
              (VObj [("expiration", VNum 5)]))
    as (propsA & propsB & _ & _ & _ & _ & HA & HB); [done|reflexivity|].
  split; [exact (HA delegated home eq_refl eq_refl)
         | exact (HB delegated home eq_refl eq_refl)].
Defined.

(** [create] on a store with data, and on an empty store. *)
Lemma create_loads_or_generates_run :
  (ClientB.create (VObj [("store", VStr "store:mine")]) (used_store, [])).2.2
  = [EvStoreLoad (VStr "store:mine");
     EvFromExport (VObj [("principal", VStr "Mk1")])
       (VObj [("store", VStr "store:mine")])]
  ∧ (EvSignerGenerate
       ∉ (ClientB.create (VObj [("store", VStr "store:mine")]) (used_store, [])).2.2)
  ∧ (EvStoreNew
       ∉ (ClientB.create (VObj [("store", VStr "store:mine")]) (used_store, [])).2.2).
Proof.
  split; [reflexivity|].
  destruct (ClientB.create (VObj [("store", VStr "store:mine")]) (used_store, []))
    as [r [s' tr]] eqn:Hrun.
  destruct (create_loads_or_generates _ _ _ _ _ Hrun)
    as (Hloaded & _ & Hstore & _).
  split.
  - destruct (Hloaded (VObj [("principal", VStr "Mk1")])
                (VObj [("store", VStr "store:mine")])) as (_ & Hno & _);
      [|exact Hno].
    injection Hrun as _ _ <-. right. left.
  - by destruct Hstore as [Hnew _].
Defined.

Lemma create_generates_only_for_empty_store_run :
  EvSignerGenerate ∈ (ClientB.create VUndefined (empty_store, [])).2.2
  ∧ (ClientB.create VUndefined (empty_store, [])).2.2
    = [EvStoreNew; EvStoreLoad (VStr "store:default"); EvSignerGenerate;
       EvAgentDataCreate (VObj [("principal", VHost (RKey "k-new"))])
         (VObj [("store", VStr "store:default")])].
Proof.
  split; [|reflexivity].
  destruct (create_generates_only_for_empty_store VUndefined empty_store
              (VStr "store:default") empty_store VUndefined empty_store)
    as [_ Hempty]; [done|right; by split|reflexivity|].
  by destruct Hempty as [Hgenerated _].
Defined.
End ReferenceRuns.
